(** * searchable-fileupload: upload, listing, search and download routes

    A shallow embedding of [server.js] (upload, home listing, download) and
    of the search module (query pipeline, result page, highlight table),
    followed by the properties of the specification proved against it.

    JavaScript strings are sequences of UTF-16 code units; they are modelled
    as lists of [N], so that [length], [slice], [split], [trim] and the
    character replacements count and compare exactly what the engine does. *)

From Stdlib Require Import Strings.String Strings.Ascii Numbers.DecimalString.
From Stdlib Require Numbers.DecimalPos.
From Stdlib Require Import NArith ZArith QArith Qabs Qround Bool Lia.
From Stdlib Require Import List.
Import ListNotations.

Set Warnings "-register-all".

Local Open Scope N_scope.
Local Open Scope list_scope.

(* ================================================================== *)
(** ** Strings *)
(* ================================================================== *)

Definition jsstring : Type := list N.

(** A literal of the source, as code units. *)
Definition js (s : string) : jsstring :=
  List.map N_of_ascii (list_ascii_of_string s).

Definition jsstring_eqb (a b : jsstring) : bool :=
  if list_eq_dec N.eq_dec a b then true else false.

Definition AMP : N := 38.
Definition LT : N := 60.
Definition GT : N := 62.
Definition DQUOTE : N := 34.
Definition SQUOTE : N := 39.
Definition COMMA : N := 44.
Definition SPACE : N := 32.
Definition NL : jsstring := [10].

(** [n] spaces of indentation inside a template literal. *)
Definition sp (n : nat) : jsstring := repeat SPACE n.

(** [s.replace(/c/g, by)] for a one-character pattern. *)
Definition replaceChar (c : N) (by_ : jsstring) (s : jsstring) : jsstring :=
  flat_map (fun x => if N.eqb x c then by_ else [x]) s.

(** [s.slice(k)] for [0 <= k]. *)
Definition sliceFrom (k : nat) (s : jsstring) : jsstring := skipn k s.

(** [parts.join(sep)] on an array of strings. *)
Fixpoint join (sep : jsstring) (parts : list jsstring) : jsstring :=
  match parts with
  | [] => []
  | [p] => p
  | p :: rest => p ++ sep ++ join sep rest
  end.

(** [s.split(c)] for a one-character separator: never the empty array. *)
Fixpoint split (c : N) (s : jsstring) : list jsstring :=
  match s with
  | [] => [[]]
  | x :: rest =>
      if N.eqb x c then [] :: split c rest
      else match split c rest with
           | [] => [[x]]
           | p :: ps => (x :: p) :: ps
           end
  end.

(** WhiteSpace and LineTerminator code points of ECMAScript, the ones
    [String.prototype.trim] strips. All are single code units. *)
Definition isWhiteSpace (c : N) : bool :=
  (c =? 9) || (c =? 10) || (c =? 11) || (c =? 12) || (c =? 13) || (c =? 32)
  || (c =? 160) || (c =? 5760) || ((8192 <=? c) && (c <=? 8202))
  || (c =? 8232) || (c =? 8233) || (c =? 8239) || (c =? 8287)
  || (c =? 12288) || (c =? 65279).

Fixpoint trimStart (s : jsstring) : jsstring :=
  match s with
  | [] => []
  | c :: rest => if isWhiteSpace c then trimStart rest else s
  end.

Definition trimEnd (s : jsstring) : jsstring := rev (trimStart (rev s)).

Definition trim (s : jsstring) : jsstring := trimEnd (trimStart s).

(** [s.endsWith(suffix)] *)
Definition endsWith (suffix s : jsstring) : bool :=
  jsstring_eqb (skipn (length s - length suffix) s) suffix
  && (length suffix <=? length s)%nat.

(** [s.toLowerCase()]. Exact on the code units below U+0100 (A-Z and the
    Latin-1 capitals); the case tables above that range are not reproduced
    and such units are left as they are. The MIME types the server compares
    against are ASCII. *)
Definition lowerUnit (c : N) : N :=
  if ((65 <=? c) && (c <=? 90))
     || ((192 <=? c) && (c <=? 222) && negb (c =? 215))
  then c + 32 else c.

Definition toLowerCase (s : jsstring) : jsstring := List.map lowerUnit s.

(** Decimal rendering of a non-negative integer. *)
Definition showN (n : N) : jsstring :=
  js (NilZero.string_of_uint (N.to_uint n)).

Definition showZ (z : Z) : jsstring :=
  js (NilZero.string_of_int (Z.to_int z)).

(* ================================================================== *)
(** ** Values *)
(* ================================================================== *)

(** The JavaScript values that reach the rendering code: what the query
    string parser and the database driver hand over. [VInt] is a number
    with an integral value below 10^21 in size ([-0] is [0]), which
    [String] writes in decimal digits; [VOther] is any other truthy value
    (a number that is not integral, a date, an identifier object), carried
    with the text [String(v)] gives for it. *)
Inductive jsvalue : Type :=
| VUndefined
| VNull
| VBool (b : bool)
| VInt (z : Z)
| VNaN
| VOther (repr : jsstring)
| VStr (s : jsstring)
| VArr (items : list jsvalue)
| VObj (fields : list (jsstring * jsvalue)).

(** ToBoolean *)
Definition truthy (v : jsvalue) : bool :=
  match v with
  | VUndefined | VNull | VNaN => false
  | VBool b => b
  | VInt z => negb (Z.eqb z 0)
  | VStr s => match s with [] => false | _ => true end
  | VOther _ | VArr _ | VObj _ => true
  end.

(** [a || b] *)
Definition orV (a b : jsvalue) : jsvalue := if truthy a then a else b.

(** [v !== 0] *)
Definition notStrictZero (v : jsvalue) : bool :=
  match v with
  | VInt z => negb (Z.eqb z 0)
  | _ => true
  end.

(** [String(v)]; an array joins its elements with a comma, [null] and
    [undefined] elements giving the empty string. *)
Fixpoint ToString (v : jsvalue) : jsstring :=
  match v with
  | VUndefined => js "undefined"
  | VNull => js "null"
  | VBool true => js "true"
  | VBool false => js "false"
  | VInt z => showZ z
  | VNaN => js "NaN"
  | VOther r => r
  | VStr s => s
  | VArr items =>
      join [COMMA]
        (List.map (fun x => match x with
                            | VUndefined | VNull => []
                            | _ => ToString x
                            end) items)
  | VObj _ => js "[object Object]"
  end.

(** [a || b] where [a] is a string or [undefined] and [b] a string. *)
Definition orS (a : option jsstring) (b : jsstring) : jsstring :=
  match a with
  | Some (c :: rest) => c :: rest
  | _ => b
  end.

(* ================================================================== *)
(** ** The search module: escaping and the highlight table *)
(* ================================================================== *)

(** The five replacements of [escapeHtml], in the order of the source. *)
Definition escapeString (s : jsstring) : jsstring :=
  replaceChar SQUOTE (js "&#39;")
    (replaceChar DQUOTE (js "&quot;")
       (replaceChar GT (js "&gt;")
          (replaceChar LT (js "&lt;")
             (replaceChar AMP (js "&amp;") s)))).

Definition escapeHtml (str : jsvalue) : jsstring :=
  if negb (truthy str) && notStrictZero str then []
  else escapeString (ToString str).

(** The five entities the escaper writes. *)
Definition entities : list jsstring :=
  [js "&amp;"; js "&lt;"; js "&gt;"; js "&quot;"; js "&#39;"].

(** One segment of a highlight entry: [{ value, type }]. *)
Record TextSeg : Type := mkSeg {
  seg_value : jsstring;
  seg_type : jsstring
}.

(** One highlight entry: [{ path, texts }]; [hl_texts = None] when [texts]
    is not an array. *)
Record Highlight : Type := mkHighlight {
  hl_path : jsstring;
  hl_texts : option (list TextSeg)
}.

Definition AROUND_LEN : nat := 80.

(** Declared beside [AROUND_LEN] as a cap per row; no code reads it. *)
Definition MAX_SNIPPET_LEN : nat := 400.

(** The marker literal of the source, three code units
    (U+00E2, U+20AC, U+00A6). *)
Definition ELLIPSIS : jsstring := [226; 8364; 166].

(** The callback of [texts.map] in [buildHighlightTable]. *)
Definition renderPart (t : TextSeg) : jsstring :=
  let v := escapeHtml (VStr (orS (Some (seg_value t)) [])) in
  if jsstring_eqb (seg_type t) (js "hit") then
    js "<mark>" ++ v ++ js "</mark>"
  else
    if (AROUND_LEN <? length v)%nat
    then ELLIPSIS ++ sliceFrom (length v - AROUND_LEN) v
    else v.

Definition textsOf (h : Highlight) : list TextSeg :=
  match hl_texts h with
  | Some ts => ts
  | None => []
  end.

(** [parts.join("")] *)
Definition snippetOf (h : Highlight) : jsstring :=
  join [] (List.map renderPart (textsOf h)).

Definition highlightRow (h : Highlight) : jsstring :=
  let path := escapeHtml (VStr (orS (Some (hl_path h)) [])) in
  NL ++ sp 6 ++ js "<tr>" ++
  NL ++ sp 8 ++ js "<td>" ++ path ++ js "</td>" ++
  NL ++ sp 8 ++ js "<td>" ++ snippetOf h ++ js "</td>" ++
  NL ++ sp 6 ++ js "</tr>" ++
  NL ++ sp 4.

Definition buildHighlightTable (highlights : option (list Highlight)) : jsstring :=
  match highlights with
  | None => []
  | Some [] => []
  | Some hs =>
      let rows := join [] (List.map highlightRow hs) in
      match rows with
      | [] => []
      | _ =>
          NL ++ sp 4 ++ js "<table class=" ++ [DQUOTE] ++ js "subhl" ++ [DQUOTE] ++ js ">" ++
          NL ++ sp 6 ++ js "<thead>" ++
          NL ++ sp 8 ++ js "<tr>" ++
          NL ++ sp 10 ++ js "<th>Field</th>" ++
          NL ++ sp 10 ++ js "<th>Snippet</th>" ++
          NL ++ sp 8 ++ js "</tr>" ++
          NL ++ sp 6 ++ js "</thead>" ++
          NL ++ sp 6 ++ js "<tbody>" ++
          NL ++ sp 8 ++ rows ++
          NL ++ sp 6 ++ js "</tbody>" ++
          NL ++ sp 4 ++ js "</table>" ++
          NL ++ sp 2
      end
  end.

(* ================================================================== *)
(** ** Stored file records *)
(* ================================================================== *)

(** An ObjectId, as its 24 lower-case hexadecimal digits. *)
Definition ObjectId : Type := jsstring.

(** [metadata.keywords] as a page finds it: an array, some other value
    (a string), or nothing. *)
Inductive Keywords : Type :=
| KwAbsent
| KwText (s : jsstring)
| KwList (l : list jsstring).

Record Metadata : Type := mkMetadata {
  md_name : option jsstring;
  md_type : option jsstring;
  md_keywords : Keywords;
  md_briefing : option jsstring;
  md_sizeBytes : option N;
  md_sourcePath : option jsstring;
  md_content : option jsstring
}.

(** [{}] *)
Definition emptyMetadata : Metadata :=
  mkMetadata None None KwAbsent None None None None.

(** A document of [abc_uploads.files]. GridFS writes [_id], [filename],
    [length] and [uploadDate] (milliseconds since the epoch) on every
    document; [score] and [highlights] are added by the search projection. *)
Record FileDoc : Type := mkFileDoc {
  fd_id : ObjectId;
  fd_filename : jsstring;
  fd_contentType : option jsstring;
  fd_length : N;
  fd_uploadDate : N;
  fd_metadata : option Metadata;
  fd_score : option Q;
  fd_highlights : option (list Highlight)
}.

(** [file.metadata || {}] *)
Definition metadataOf (file : FileDoc) : Metadata :=
  match fd_metadata file with
  | Some md => md
  | None => emptyMetadata
  end.

(** [Array.isArray(md.keywords) ? md.keywords.join(", ") : (md.keywords || "")],
    the expression both pages use for the keywords cell. *)
Definition keywordsDisplay (md : Metadata) : jsstring :=
  match md_keywords md with
  | KwList l => join (js ", ") l
  | KwText s => orS (Some s) []
  | KwAbsent => []
  end.

Definition pad2 (n : N) : jsstring :=
  if n <? 10 then js "0" ++ showN n else showN n.

(** [x.toFixed(2)]: the integer [n] nearest to [100 x], the larger one on a
    tie, written with two decimals (for [|x| < 10^21]). *)
Definition toFixed2 (x : Q) : jsstring :=
  let n := Z.to_N (Qfloor (Qabs x * (100 # 1) + (1 # 2))%Q) in
  (if Qle_bool 0 x then [] else js "-")
  ++ showN (n / 100) ++ js "." ++ pad2 (n mod 100).

(** [(len / 1024).toFixed(2)] *)
Definition sizeKB (len : N) : jsstring :=
  toFixed2 (Qmake (Z.of_N len) 1024).

(* ================================================================== *)
(** ** The world outside the process, and what a handler does to it *)
(* ================================================================== *)

(** The result of a call that may throw (or of an awaited promise that
    may reject). *)
Inductive outcome (A : Type) : Type :=
| Returns (a : A)
| Throws (err : jsstring).

Arguments Returns {A} a.
Arguments Throws {A} err.

(** The collaborators a request handler calls: the database, the file
    system, the DOCX extractor, the GridFS bucket and the locale. *)
Record World : Type := mkWorld {
  db_aggregate : jsstring -> jsvalue -> outcome (list FileDoc);
  db_findOne : jsstring -> ObjectId -> outcome (option FileDoc);
  fs_readFile_utf8 : jsstring -> outcome jsstring;
  mammoth_extractRawText : jsstring -> outcome jsstring;
  bucket_upload : jsstring -> jsstring -> Metadata -> outcome unit;
  date_toLocaleString : N -> jsstring
}.

(** What a response carries: plain text, or the search page, which is a
    fixed template around three computed parts: the value of the form's
    input, the number of results and the table body. *)
Inductive Body : Type :=
| Text (s : jsstring)
| SearchPage (formValue : jsstring) (count : nat) (tbody : jsstring).

(** The observable steps of a handler, in the order it takes them. *)
Inductive event : Type :=
| ConsoleLog (label : jsstring)
| ConsoleError (label : jsstring)
| Aggregate (collection : jsstring) (pipeline : jsvalue)
| FindOne (collection : jsstring) (id : ObjectId)
| ReadFile (path : jsstring)
| ExtractRawText (path : jsstring)
| OpenUploadStream (filename contentType : jsstring) (metadata : Metadata)
| Unlink (path : jsstring)
| SetHeader (name value : jsstring)
| PipeDownload (id : ObjectId)
| Send (status : N) (body : Body)
| RedirectTo (location : jsstring).

Definition FILES_COLLECTION : jsstring := js "abc_uploads.files".

(** The requests a trace sends to the search service. *)
Definition searchCalls (tr : list event) : list event :=
  filter (fun e => match e with Aggregate _ _ => true | _ => false end) tr.

(* ================================================================== *)
(** ** The search module: result page *)
(* ================================================================== *)

(** [xs.map((x, i) => f x i)] with the index starting at [k]. *)
Fixpoint mapi_from {A B : Type} (k : nat) (f : A -> nat -> B) (xs : list A) : list B :=
  match xs with
  | [] => []
  | x :: rest => f x k :: mapi_from (S k) f rest
  end.

Definition mapi {A B : Type} (f : A -> nat -> B) (xs : list A) : list B :=
  mapi_from 0 f xs.

(** The callback of [results.map] in [renderSearchPage]. *)
Definition searchRow (w : World) (file : FileDoc) (i : nat) : jsstring :=
  let md := metadataOf file in
  let dateStr := date_toLocaleString w (fd_uploadDate file) in
  let highlightSnippet := buildHighlightTable (fd_highlights file) in
  NL ++ sp 8 ++ js "<tr>" ++
  NL ++ sp 10 ++ js "<td>" ++ showN (N.of_nat i + 1) ++ js "</td>" ++
  NL ++ sp 10 ++ js "<td>" ++ escapeHtml (VStr (orS (md_name md) (fd_filename file))) ++ js "</td>" ++
  NL ++ sp 10 ++ js "<td>" ++ escapeHtml (VStr (orS (Some (fd_filename file)) [])) ++ js "</td>" ++
  NL ++ sp 10 ++ js "<td>" ++ escapeHtml (VStr (orS (md_type md) [])) ++ js "</td>" ++
  NL ++ sp 10 ++ js "<td>" ++ sizeKB (fd_length file) ++ js " KB</td>" ++
  NL ++ sp 10 ++ js "<td>" ++ escapeHtml (VStr dateStr) ++ js "</td>" ++
  NL ++ sp 10 ++ js "<td>" ++ escapeHtml (VStr (keywordsDisplay md)) ++ js "</td>" ++
  NL ++ sp 10 ++ js "<td>" ++ escapeHtml (VStr (orS (md_briefing md) [])) ++ js "</td>" ++
  NL ++ sp 10 ++ js "<td>" ++ highlightSnippet ++ js "</td>" ++
  NL ++ sp 10 ++ js "<td>" ++ match fd_score file with
                              | Some x => toFixed2 x
                              | None => []
                              end ++ js "</td>" ++
  NL ++ sp 10 ++ js "<td><a href=" ++ [DQUOTE] ++ js "/search/download/" ++ fd_id file
     ++ [DQUOTE] ++ js ">Download</a></td>" ++
  NL ++ sp 8 ++ js "</tr>" ++
  NL ++ sp 6.

(** [renderSearchPage(res, query, results)] *)
Definition renderSearchPage (w : World) (query : jsvalue) (results : list FileDoc) : list event :=
  let rows := join [] (mapi (searchRow w) results) in
  [Send 200 (SearchPage (escapeHtml query) (length results) rows)].

(* ================================================================== *)
(** ** The search module: the query *)
(* ================================================================== *)

Definition obj (fields : list (string * jsvalue)) : jsvalue :=
  VObj (List.map (fun kv => (js (fst kv), snd kv)) fields).

Definition str (s : string) : jsvalue := VStr (js s).

(** [fuzzy: { maxEdits: 1, prefixLength: 2 }] *)
Definition fuzzy12 : jsvalue :=
  obj [("maxEdits", VInt 1); ("prefixLength", VInt 2)]%string.

(** [score: { boost: { value: 2 } }] *)
Definition boost2 : jsvalue :=
  obj [("boost", obj [("value", VInt 2)])]%string.

(** The aggregation pipeline of the search route, for the query value [q]. *)
Definition pipeline (q : jsvalue) : jsvalue :=
  VArr [
    obj [("$search", obj [
      ("index", str "default");
      ("compound", obj [
        ("should", VArr [
          obj [("autocomplete", obj [
            ("query", q);
            ("path", str "metadata.name");
            ("fuzzy", fuzzy12)])];
          obj [("text", obj [
            ("query", q);
            ("path", VArr [str "metadata.keywords"; str "metadata.type";
                           str "metadata.sourcePath"; str "metadata.content"]);
            ("score", boost2);
            ("fuzzy", fuzzy12)])];
          obj [("text", obj [
            ("query", q);
            ("path", str "metadata.briefing");
            ("score", boost2);
            ("fuzzy", fuzzy12)])]]);
        ("minimumShouldMatch", VInt 1)]);
      ("highlight", obj [
        ("path", VArr [str "metadata.name"; str "metadata.type";
                       str "metadata.keywords"; str "metadata.briefing";
                       str "metadata.sourcePath"; str "metadata.content"])])])];
    obj [("$limit", VInt 50)];
    obj [("$project", obj [
      ("_id", VInt 1);
      ("filename", VInt 1);
      ("uploadDate", VInt 1);
      ("length", VInt 1);
      ("metadata", VInt 1);
      ("score", obj [("$meta", str "searchScore")]);
      ("highlights", obj [("$meta", str "searchHighlights")])])]
  ]%string.

(** The three [console.log] lines the route writes for result [i]. *)
Definition logResult (r : FileDoc) (i : nat) : list event :=
  [ConsoleLog (js "Doc #" ++ showN (N.of_nat i + 1) ++ js " _id=" ++ fd_id r);
   ConsoleLog (js "  highlight count =");
   ConsoleLog (js "  highlight paths =")].

(** [GET /search], for [req.query.q = q]. *)
Definition searchRoute (w : World) (q : jsvalue) : list event :=
  ConsoleLog (js "[/search] called, q =") ::
  if negb (truthy q) then renderSearchPage w (VStr []) []
  else
    Aggregate FILES_COLLECTION (pipeline q) ::
    match db_aggregate w FILES_COLLECTION (pipeline q) with
    | Returns results =>
        ConsoleLog (NL ++ js "=== RAW SEARCH RESULTS ===") ::
        concat (mapi logResult results) ++
        ConsoleLog (js "=== END ===" ++ NL) ::
        renderSearchPage w q results
    | Throws _ =>
        [ConsoleError (js "Search error:");
         Send 500 (Text (js "Search error"))]
    end.

(* ================================================================== *)
(** ** server.js: the rows of the home listing *)
(* ================================================================== *)

(** The callback of [files.map] in [GET /]; [page] and [pageSize] are the
    numbers the route computed from the query string. *)
Definition homeRow (w : World) (page pageSize : Z) (file : FileDoc) (i : nat) : jsstring :=
  let sizeKB := sizeKB (fd_length file) in
  let dateStr := date_toLocaleString w (fd_uploadDate file) in
  let md := metadataOf file in
  let displayName := orS (md_name md) (fd_filename file) in
  let displayType := orS (md_type md) (orS (fd_contentType file) []) in
  let keywords := keywordsDisplay md in
  let briefing := orS (md_briefing md) [] in
  NL ++ sp 8 ++ js "<tr>" ++
  NL ++ sp 10 ++ js "<td>" ++ showZ ((page - 1) * pageSize + Z.of_nat i + 1) ++ js "</td>" ++
  NL ++ sp 10 ++ js "<td>" ++ displayName ++ js "</td>" ++
  NL ++ sp 10 ++ js "<td>" ++ fd_filename file ++ js "</td>" ++
  NL ++ sp 10 ++ js "<td>" ++ displayType ++ js "</td>" ++
  NL ++ sp 10 ++ js "<td>" ++ sizeKB ++ js " KB</td>" ++
  NL ++ sp 10 ++ js "<td>" ++ dateStr ++ js "</td>" ++
  NL ++ sp 10 ++ js "<td>" ++ keywords ++ js "</td>" ++
  NL ++ sp 10 ++ js "<td>" ++ briefing ++ js "</td>" ++
  NL ++ sp 10 ++ js "<td><a href=" ++ [DQUOTE] ++ js "/files/" ++ fd_id file
     ++ [DQUOTE] ++ js ">Download</a></td>" ++
  NL ++ sp 8 ++ js "</tr>" ++
  NL ++ sp 6.

(** [rows] of [GET /]: the table body of the listing page. *)
Definition homeRows (w : World) (page pageSize : Z) (files : list FileDoc) : jsstring :=
  join [] (mapi (homeRow w page pageSize) files).

(* ================================================================== *)
(** ** server.js: upload *)
(* ================================================================== *)

(** [req.file], as the multipart middleware leaves it. *)
Record UploadedFile : Type := mkUploadedFile {
  f_path : jsstring;
  f_size : N;
  f_mimetype : option jsstring;
  f_originalname : jsstring
}.

(** The text fields of the form, [req.body], each sent at most once. *)
Record UploadForm : Type := mkUploadForm {
  displayName : option jsstring;
  type_ : option jsstring;
  keywords : option jsstring;
  briefing : option jsstring
}.

Definition MIME_JSON : jsstring := js "application/json".
Definition MIME_TEXT_JSON : jsstring := js "text/json".
Definition MIME_XML : jsstring := js "application/xml".
Definition MIME_TEXT_XML : jsstring := js "text/xml".
Definition MIME_DOCX : jsstring :=
  js "application/vnd.openxmlformats-officedocument.wordprocessingml.document".

Definition shouldExtractContent (file : option UploadedFile) : bool :=
  match file with
  | None => false
  | Some f =>
      match f_mimetype f with
      | None | Some [] => false
      | Some m =>
          let mt := toLowerCase m in
          if jsstring_eqb mt MIME_JSON || jsstring_eqb mt MIME_TEXT_JSON then true
          else if jsstring_eqb mt MIME_XML || jsstring_eqb mt MIME_TEXT_XML
                  || endsWith (js "+xml") mt then true
          else if jsstring_eqb mt MIME_DOCX then true
          else false
      end
  end.

(** [keywords ? keywords.split(',').map(k => k.trim()).filter(Boolean) : []] *)
Definition keywordArray (keywords : option jsstring) : list jsstring :=
  match keywords with
  | None | Some [] => []
  | Some k =>
      filter (fun s => truthy (VStr s)) (List.map trim (split COMMA k))
  end.

Definition TEN_MB : N := 10 * 1024 * 1024.

(** The [try] block of the upload route and its [catch]: the steps taken
    and the value [contentString] is left with ([None] is [undefined]). *)
Definition extractContent (w : World) (tmpFilePath mimeType : jsstring)
  : list event * option jsstring :=
  if jsstring_eqb mimeType MIME_JSON || jsstring_eqb mimeType MIME_TEXT_JSON then
    match fs_readFile_utf8 w tmpFilePath with
    | Returns s => ([ReadFile tmpFilePath], Some s)
    | Throws _ =>
        ([ReadFile tmpFilePath; ConsoleError (js "Content extraction failed:")], None)
    end
  else if jsstring_eqb mimeType MIME_XML || jsstring_eqb mimeType MIME_TEXT_XML
          || endsWith (js "+xml") mimeType then
    match fs_readFile_utf8 w tmpFilePath with
    | Returns s => ([ReadFile tmpFilePath], Some s)
    | Throws _ =>
        ([ReadFile tmpFilePath; ConsoleError (js "Content extraction failed:")], None)
    end
  else if jsstring_eqb mimeType MIME_DOCX then
    match mammoth_extractRawText w tmpFilePath with
    | Returns value => ([ExtractRawText tmpFilePath], Some (orS (Some value) []))
    | Throws _ =>
        ([ExtractRawText tmpFilePath; ConsoleError (js "Content extraction failed:")], None)
    end
  else ([], None).

(** [contentString && contentString.length > 0] decides whether
    [metadata.content] is set. *)
Definition contentField (contentString : option jsstring) : option jsstring :=
  match contentString with
  | Some (c :: rest) => if (0 <? length (c :: rest))%nat then Some (c :: rest) else None
  | _ => None
  end.

(** The metadata object of the upload route. *)
Definition buildMetadata (f : UploadedFile) (form : UploadForm)
    (mimeType : jsstring) (contentString : option jsstring) : Metadata :=
  {| md_name := Some (orS (displayName form) (f_originalname f));
     md_type := Some (orS (type_ form) mimeType);
     md_keywords := KwList (keywordArray (keywords form));
     md_briefing := Some (orS (briefing form) []);
     md_sizeBytes := Some (f_size f);
     md_sourcePath := Some (f_originalname f);
     md_content := contentField contentString |}.

(** The extraction step of the route: what it logs, and [contentString]. *)
Definition uploadExtraction (w : World) (f : UploadedFile)
  : list event * option jsstring :=
  let mimeType := toLowerCase (orS (f_mimetype f) []) in
  if (f_size f <=? TEN_MB) && shouldExtractContent (Some f)
  then extractContent w (f_path f) mimeType
  else ([], None).

(** The metadata document an upload hands to the bucket. *)
Definition uploadMetadata (w : World) (f : UploadedFile) (form : UploadForm) : Metadata :=
  buildMetadata f form (toLowerCase (orS (f_mimetype f) []))
    (snd (uploadExtraction w f)).

(** [POST /upload], for [req.file] and [req.body], on the path where the
    form is parsed and the bucket reads the temporary file: every text
    field was sent at most once, so each is a string or missing, and the
    read stream piped into the bucket delivers the file. Outside that path
    [keywords.split] throws on a field sent several times (an array) and
    the route's outer [catch] answers 500 "Internal server error" before
    anything is read or stored; and a read stream that fails has no
    listener, so neither of the bucket's two outcomes arrives. *)
Definition uploadRoute (w : World) (file : option UploadedFile) (form : UploadForm)
  : list event :=
  match file with
  | None => [Send 400 (Text (js "No file uploaded"))]
  | Some f =>
      let mimeType := toLowerCase (orS (f_mimetype f) []) in
      let metadata := uploadMetadata w f form in
      fst (uploadExtraction w f) ++
      OpenUploadStream (f_originalname f) mimeType metadata ::
      match bucket_upload w (f_originalname f) mimeType metadata with
      | Returns _ => [Unlink (f_path f); RedirectTo (js "/")]
      | Throws _ =>
          [ConsoleError (js "Upload error:");
           Send 500 (Text (js "Upload failed"))]
      end
  end.

(* ================================================================== *)
(** ** server.js and the search module: download *)
(* ================================================================== *)

Definition isHexDigit (c : N) : bool :=
  ((48 <=? c) && (c <=? 57)) || ((97 <=? c) && (c <=? 102))
  || ((65 <=? c) && (c <=? 70)).

(** [new ObjectId(s)] of the database driver, for a string: 24 hexadecimal
    digits give an identifier, anything else throws. *)
Definition newObjectId (s : jsstring) : outcome ObjectId :=
  if (length s =? 24)%nat && forallb isHexDigit s
  then Returns (toLowerCase s)
  else Throws (js "input must be a 24 character hex string, 12 byte Uint8Array, or an integer").

(** The code units [res.setHeader] accepts in a header value: tab, U+0020
    to U+007E and U+0080 to U+00FF. On any other it throws. *)
Definition validHeaderUnit (c : N) : bool :=
  (c =? 9) || ((32 <=? c) && (c <=? 126)) || ((128 <=? c) && (c <=? 255)).

Definition validHeaderValue (s : jsstring) : bool := forallb validHeaderUnit s.

Definition INVALID_HEADER_CHAR : jsstring := js "Invalid character in header content".

(** [fileDoc.contentType || "application/octet-stream"] *)
Definition contentTypeHeader (fileDoc : FileDoc) : jsstring :=
  orS (fd_contentType fileDoc) (js "application/octet-stream").

(** The value of the Content-Disposition header, a template literal around
    [fileDoc.filename]. *)
Definition dispositionHeader (fileDoc : FileDoc) : jsstring :=
  js "attachment; filename=" ++ [DQUOTE] ++ fd_filename fileDoc ++ [DQUOTE].

(** The handler shared, line for line, by [GET /files/:id] and
    [GET /search/download/:id]; [idParam] is [req.params.id]. Every step up
    to the stream sits in the [try] block: the identifier, the lookup and
    the two [res.setHeader] calls can each throw, and the [catch] answers
    with status 500. *)
Definition downloadHandler (w : World) (idParam : jsstring) : list event :=
  match newObjectId idParam with
  | Throws e => [ConsoleError e; Send 500 (Text (js "Download error"))]
  | Returns id =>
      FindOne FILES_COLLECTION id ::
      match db_findOne w FILES_COLLECTION id with
      | Throws e => [ConsoleError e; Send 500 (Text (js "Download error"))]
      | Returns None => [Send 404 (Text (js "File not found"))]
      | Returns (Some fileDoc) =>
          if negb (validHeaderValue (contentTypeHeader fileDoc)) then
            [ConsoleError INVALID_HEADER_CHAR; Send 500 (Text (js "Download error"))]
          else
            SetHeader (js "Content-Type") (contentTypeHeader fileDoc) ::
            if negb (validHeaderValue (dispositionHeader fileDoc)) then
              [ConsoleError INVALID_HEADER_CHAR; Send 500 (Text (js "Download error"))]
            else
              [SetHeader (js "Content-Disposition") (dispositionHeader fileDoc);
               PipeDownload id]
      end
  end.

Definition filesIdRoute : World -> jsstring -> list event := downloadHandler.

Definition searchDownloadRoute : World -> jsstring -> list event := downloadHandler.

(* ================================================================== *)
(** ** server.js: the paged listings *)
(* ================================================================== *)

Definition DEFAULT_PAGE_SIZE : Z := 20.

(** The value of a decimal digit, of a hexadecimal digit. *)
Definition decDigit (c : N) : option Z :=
  if (48 <=? c) && (c <=? 57) then Some (Z.of_N (c - 48)) else None.

Definition hexDigit (c : N) : option Z :=
  if (48 <=? c) && (c <=? 57) then Some (Z.of_N (c - 48))
  else if (97 <=? c) && (c <=? 102) then Some (Z.of_N (c - 87))
  else if (65 <=? c) && (c <=? 70) then Some (Z.of_N (c - 55))
  else None.

(** The value of the longest run of digits [s] starts with, continuing
    from [acc]. *)
Fixpoint digitsValue (digit : N -> option Z) (radix acc : Z) (s : jsstring) : Z :=
  match s with
  | [] => acc
  | c :: rest =>
      match digit c with
      | Some d => digitsValue digit radix (acc * radix + d) rest
      | None => acc
      end
  end.

(** [None] when [s] does not start with a digit. *)
Definition parseDigits (digit : N -> option Z) (radix : Z) (s : jsstring) : option Z :=
  match s with
  | [] => None
  | c :: _ =>
      match digit c with
      | Some _ => Some (digitsValue digit radix 0 s)
      | None => None
      end
  end.

(** The sign [parseInt] reads, and the text after it. *)
Definition readSign (s : jsstring) : Z * jsstring :=
  match s with
  | c :: rest =>
      if c =? 45 then ((-1)%Z, rest)
      else if c =? 43 then (1%Z, rest)
      else (1%Z, s)
  | [] => (1%Z, s)
  end.

(** The text starts with [0x] or [0X]. *)
Definition hasHexPrefix (s : jsstring) : bool :=
  match s with
  | c :: x :: _ => (c =? 48) && ((x =? 120) || (x =? 88))
  | _ => false
  end.

(** [parseInt(v)] with no radix: the argument is converted to a string,
    leading white space is dropped, a sign and a [0x] prefix are read, then
    the longest run of digits; [None] is NaN. The result is the integer the
    digits denote: the engine rounds it to the nearest double, which is the
    same number below 2^53. *)
Definition parseInt (v : jsvalue) : option Z :=
  let signed := readSign (trimStart (ToString v)) in
  let body := snd signed in
  let magnitude :=
    if hasHexPrefix body
    then parseDigits hexDigit 16 (skipn 2 body)
    else parseDigits decDigit 10 body in
  match magnitude with
  | Some m => Some (fst signed * m)%Z
  | None => None
  end.

(** [x || d] for a number [x]: NaN and zero give [d]. *)
Definition orNum (x : option Z) (d : Z) : Z :=
  match x with
  | Some z => if Z.eqb z 0 then d else z
  | None => d
  end.

(** [Math.max(parseInt(req.query.page) || 1, 1)] *)
Definition resolvePage (q : jsvalue) : Z := Z.max (orNum (parseInt q) 1) 1.

(** [Math.max(parseInt(req.query.pageSize) || DEFAULT_PAGE_SIZE, 1)] *)
Definition resolvePageSize (q : jsvalue) : Z :=
  Z.max (orNum (parseInt q) DEFAULT_PAGE_SIZE) 1.

(** [Math.ceil(a / b)] for integers, [0 < b]. *)
Definition ceilDiv (a b : Z) : Z := (- ((- a) / b))%Z.

(** [Math.max(Math.ceil(totalDocs / pageSize), 1)] *)
Definition totalPagesOf (totalDocs pageSize : Z) : Z :=
  Z.max (ceilDiv totalDocs pageSize) 1.

(** [find({}).sort({ uploadDate: -1 }).skip((page - 1) * pageSize)
    .limit(pageSize).toArray()], on the documents of the collection in the
    order the sort gives them. *)
Definition findPage (sorted : list FileDoc) (page pageSize : Z) : list FileDoc :=
  firstn (Z.to_nat pageSize) (skipn (Z.to_nat ((page - 1) * pageSize)) sorted).

(** The target of a navigation link. *)
Definition pageHref (page pageSize : Z) : jsstring :=
  js "/?page=" ++ showZ page ++ js "&pageSize=" ++ showZ pageSize.

Definition prevLink (page pageSize : Z) : jsstring :=
  if (1 <? page)%Z
  then js "<a href=" ++ [DQUOTE] ++ pageHref (page - 1) pageSize ++ [DQUOTE]
       ++ js ">" ++ [171] ++ js " Previous</a>"
  else [].

Definition nextLink (page pageSize totalPages : Z) : jsstring :=
  if (page <? totalPages)%Z
  then js "<a href=" ++ [DQUOTE] ++ pageHref (page + 1) pageSize ++ [DQUOTE]
       ++ js ">Next " ++ [187] ++ js "</a>"
  else [].

(** The computed parts of the home page, in the order of its template: the
    numbers of the information line, the table body ([None] when the page
    shows the paragraph "No files uploaded." instead of a table) and the
    two links. *)
Record HomePage : Type := mkHomePage {
  home_page : Z;
  home_totalPages : Z;
  home_totalDocs : Z;
  home_rows : option jsstring;
  home_prevLink : jsstring;
  home_nextLink : jsstring
}.

(** What a listing route answers with. *)
Inductive ListingResponse : Type :=
| HomeSent (p : HomePage)
| JsonSent (page pageSize totalDocs totalPages : Z) (files : list FileDoc)
| TextFailure (status : N) (body : jsstring)
| JsonFailure (status : N) (error : jsstring).

(** [GET /]. [collection] is what the database holds when the request
    arrives, in descending order of upload date, or the failure of its
    calls; [pageQ] and [pageSizeQ] are [req.query.page] and
    [req.query.pageSize]. *)
Definition homeRoute (w : World) (collection : outcome (list FileDoc))
    (pageQ pageSizeQ : jsvalue) : ListingResponse :=
  let page := resolvePage pageQ in
  let pageSize := resolvePageSize pageSizeQ in
  match collection with
  | Throws _ => TextFailure 500 (js "Error loading page")
  | Returns sorted =>
      let totalDocs := Z.of_nat (length sorted) in
      let totalPages := totalPagesOf totalDocs pageSize in
      let files := findPage sorted page pageSize in
      let rows := homeRows w page pageSize files in
      HomeSent
        {| home_page := page;
           home_totalPages := totalPages;
           home_totalDocs := totalDocs;
           home_rows := match files with
                        | [] => None
                        | _ => Some rows
                        end;
           home_prevLink := prevLink page pageSize;
           home_nextLink := nextLink page pageSize totalPages |}
  end.

(** [GET /files] *)
Definition filesRoute (collection : outcome (list FileDoc))
    (pageQ pageSizeQ : jsvalue) : ListingResponse :=
  let page := resolvePage pageQ in
  let pageSize := resolvePageSize pageSizeQ in
  match collection with
  | Throws _ => JsonFailure 500 (js "Error listing files")
  | Returns sorted =>
      let totalDocs := Z.of_nat (length sorted) in
      let totalPages := totalPagesOf totalDocs pageSize in
      let files := findPage sorted page pageSize in
      JsonSent page pageSize totalDocs totalPages files
  end.

(* ================================================================== *)
(** ** Notions used to state the properties *)
(* ================================================================== *)

(** What the five replacements together do to one code unit. *)
Definition escUnit (c : N) : jsstring :=
  if c =? AMP then js "&amp;"
  else if c =? LT then js "&lt;"
  else if c =? GT then js "&gt;"
  else if c =? DQUOTE then js "&quot;"
  else if c =? SQUOTE then js "&#39;"
  else [c].

(** The characters the escaper rewrites. *)
Definition isSpecial (c : N) : bool :=
  (c =? AMP) || (c =? LT) || (c =? GT) || (c =? DQUOTE) || (c =? SQUOTE).

(** [p] is a prefix of [s]. *)
Fixpoint startsWith (p s : jsstring) : bool :=
  match p, s with
  | [], _ => true
  | _ :: _, [] => false
  | a :: p', b :: s' => (a =? b) && startsWith p' s'
  end.

(** Every ampersand of [s] starts one of the five entities. *)
Fixpoint ampsBeginEntities (s : jsstring) : bool :=
  match s with
  | [] => true
  | c :: rest =>
      (if c =? AMP then existsb (fun e => startsWith e s) entities else true)
      && ampsBeginEntities rest
  end.

(** [needle] occurs in [s] as a run of consecutive code units. *)
Definition occursIn (needle s : jsstring) : Prop :=
  exists before after, s = before ++ needle ++ after.

(** A hit as the table shows it: the escaped text inside the marker. *)
Definition marked (text : jsstring) : jsstring :=
  js "<mark>" ++ escapeHtml (VStr text) ++ js "</mark>".

(** [needle] occurs in [s], decided. *)
Fixpoint occursInb (needle s : jsstring) : bool :=
  startsWith needle s
  || match s with
     | [] => false
     | _ :: rest => occursInb needle rest
     end.

(** [v.k] for an object [v]. *)
Definition field (k : string) (v : jsvalue) : option jsvalue :=
  match v with
  | VObj fields =>
      match find (fun kv => jsstring_eqb (fst kv) (js k)) fields with
      | Some kv => Some (snd kv)
      | None => None
      end
  | _ => None
  end.

(** [v.k1.k2...] *)
Fixpoint fieldPath (ks : list string) (v : jsvalue) : option jsvalue :=
  match ks with
  | [] => Some v
  | k :: rest =>
      match field k v with
      | Some v' => fieldPath rest v'
      | None => None
      end
  end.

(** Stage [n] of an aggregation pipeline. *)
Definition stage (n : nat) (p : jsvalue) : option jsvalue :=
  match p with
  | VArr stages => nth_error stages n
  | _ => None
  end.

(** The metadata document a trace hands to the bucket. *)
Fixpoint storedMetadata (tr : list event) : option Metadata :=
  match tr with
  | [] => None
  | OpenUploadStream _ _ md :: _ => Some md
  | _ :: rest => storedMetadata rest
  end.

(** The statuses of the error responses a trace sends. *)
Fixpoint errorStatuses (tr : list event) : list N :=
  match tr with
  | [] => []
  | Send status _ :: rest =>
      if 400 <=? status then status :: errorStatuses rest else errorStatuses rest
  | _ :: rest => errorStatuses rest
  end.

(** [mimeType] of the upload route. *)
Definition mimeOf (f : UploadedFile) : jsstring :=
  toLowerCase (orS (f_mimetype f) []).

(** The route attempts extraction for this file. *)
Definition extractionAttempted (f : UploadedFile) : bool :=
  (f_size f <=? TEN_MB) && shouldExtractContent (Some f).

(** The extractor the upload route calls for a file, by its MIME type, and
    what that call does. *)
Definition extractorOutcome (w : World) (f : UploadedFile) : outcome jsstring :=
  if jsstring_eqb (mimeOf f) MIME_DOCX
  then mammoth_extractRawText w (f_path f)
  else fs_readFile_utf8 w (f_path f).

(** The call the route makes to the extractor, as a step of its trace. *)
Definition extractorStep (f : UploadedFile) : event :=
  if jsstring_eqb (mimeOf f) MIME_DOCX
  then ExtractRawText (f_path f)
  else ReadFile (f_path f).

(** Split on commas, trim every entry, drop the empty ones. *)
Definition parseKeywords (s : jsstring) : list jsstring :=
  filter (fun k => match k with [] => false | _ => true end)
         (List.map trim (split COMMA s)).

(** What an entry of a parsed keyword list is: not empty, already trimmed,
    free of commas. *)
Definition wellFormedKeyword (k : jsstring) : Prop :=
  k <> [] /\ trim k = k /\ ~ In COMMA k.

(** A world with an empty collection, an empty file behind every path and
    a bucket that accepts every upload. *)
Definition emptyWorld : World :=
  {| db_aggregate := fun _ _ => Returns [];
     db_findOne := fun _ _ => Returns None;
     fs_readFile_utf8 := fun _ => Returns [];
     mammoth_extractRawText := fun _ => Returns [];
     bucket_upload := fun _ _ _ => Returns tt;
     date_toLocaleString := fun _ => js "1/1/2026, 12:00:00 AM" |}.

(** A world whose file system and extractor fail on every path. *)
Definition unreadableWorld : World :=
  {| db_aggregate := fun _ _ => Returns [];
     db_findOne := fun _ _ => Returns None;
     fs_readFile_utf8 := fun _ => Throws (js "ENOENT");
     mammoth_extractRawText := fun _ => Throws (js "ENOENT");
     bucket_upload := fun _ _ _ => Returns tt;
     date_toLocaleString := fun _ => js "1/1/2026, 12:00:00 AM" |}.

(** A highlight entry as the search service returns it for a briefing. *)
Definition briefingHighlight : Highlight :=
  mkHighlight (js "metadata.briefing")
    (Some [mkSeg (js "the ") (js "text"); mkSeg (js "quarterly") (js "hit");
           mkSeg (js " summary") (js "text")]).

(** An entry whose context segment has 100 letters, 20 [a] then 80 [b]. *)
Definition longContextHighlight : Highlight :=
  mkHighlight (js "metadata.content")
    (Some [mkSeg (repeat 97 20 ++ repeat 98 80) (js "text");
           mkSeg (js "quarterly") (js "hit")]).

(** A stored file whose display name, keyword and briefing carry markup. *)
Definition markupFile : FileDoc :=
  {| fd_id := js "65a1b2c3d4e5f60718293a4b";
     fd_filename := js "report.json";
     fd_contentType := Some MIME_JSON;
     fd_length := 2048;
     fd_uploadDate := 0;
     fd_metadata :=
       Some {| md_name := Some (js "<script>alert(1)</script>");
               md_type := Some MIME_JSON;
               md_keywords := KwList [js "<b>finance</b>"; js "q1"];
               md_briefing := Some (js "<i>quarterly</i>");
               md_sizeBytes := Some 2048;
               md_sourcePath := Some (js "report.json");
               md_content := None |};
     fd_score := None;
     fd_highlights := None |}.

(** An empty file declared as JSON, and a form with two keywords. *)
Definition emptyJsonFile : UploadedFile :=
  {| f_path := js "/tmp/0a1b2c";
     f_size := 0;
     f_mimetype := Some MIME_JSON;
     f_originalname := js "empty.json" |}.

Definition reportFile : UploadedFile :=
  {| f_path := js "/tmp/3d4e5f";
     f_size := 2048;
     f_mimetype := Some MIME_JSON;
     f_originalname := js "report.json" |}.

Definition reportForm : UploadForm :=
  {| displayName := Some (js "Q1 Report");
     type_ := None;
     keywords := Some (js "finance, q1");
     briefing := Some (js "quarterly summary") |}.

(** A world in which every file reads as the same JSON text. *)
Definition reportWorld : World :=
  {| db_aggregate := fun _ _ => Returns [];
     db_findOne := fun _ _ => Returns None;
     fs_readFile_utf8 := fun _ => Returns (js "{}");
     mammoth_extractRawText := fun _ => Returns [];
     bucket_upload := fun _ _ _ => Returns tt;
     date_toLocaleString := fun _ => js "1/1/2026, 12:00:00 AM" |}.

(** The last [n] code units of [s] (all of it when it is shorter). *)
Definition lastN (n : nat) (s : jsstring) : jsstring := skipn (length s - n) s.

(** No code unit of [s] is one the escaper rewrites. *)
Definition plainText (s : jsstring) : bool :=
  forallb (fun c => negb (isSpecial c)) s.

(** [s] has none of the characters that open or close markup or an
    attribute value. *)
Definition noMarkup (s : jsstring) : Prop :=
  forall c, In c s -> c <> LT /\ c <> GT /\ c <> DQUOTE /\ c <> SQUOTE.

(** The calls a trace makes to an extractor. *)
Definition extractorCalls (tr : list event) : list event :=
  filter (fun e => match e with
                   | ReadFile _ | ExtractRawText _ => true
                   | _ => false
                   end) tr.

(** The temporary files a trace removes. *)
Definition unlinked (tr : list event) : list jsstring :=
  flat_map (fun e => match e with Unlink p => [p] | _ => [] end) tr.

(** A digit of the decimal notation, as a code unit. *)
Definition isDecimalUnit (c : N) : bool := (48 <=? c) && (c <=? 57).

(** The events of a trace that answer the request. *)
Definition responses (tr : list event) : list event :=
  filter (fun e => match e with
                   | Send _ _ | RedirectTo _ | PipeDownload _ => true
                   | _ => false
                   end) tr.

(** A world whose collection holds one file under every identifier. *)
Definition oneFileWorld : World :=
  {| db_aggregate := fun _ _ => Returns [];
     db_findOne := fun _ _ => Returns (Some markupFile);
     fs_readFile_utf8 := fun _ => Returns (js "{}");
     mammoth_extractRawText := fun _ => Returns [];
     bucket_upload := fun _ _ _ => Returns tt;
     date_toLocaleString := fun _ => js "1/1/2026, 12:00:00 AM" |}.






(** A stored file whose name has a code unit above U+00FF (U+62A5), and a
    world that finds it under every identifier. *)
Definition wideNameFile : FileDoc :=
  {| fd_id := js "65a1b2c3d4e5f60718293a4b";
     fd_filename := [25253] ++ js ".json";
     fd_contentType := Some MIME_JSON;
     fd_length := 2048;
     fd_uploadDate := 0;
     fd_metadata := None;
     fd_score := None;
     fd_highlights := None |}.

Definition wideNameWorld : World :=
  {| db_aggregate := fun _ _ => Returns [];
     db_findOne := fun _ _ => Returns (Some wideNameFile);
     fs_readFile_utf8 := fun _ => Returns (js "{}");
     mammoth_extractRawText := fun _ => Returns [];
     bucket_upload := fun _ _ _ => Returns tt;
     date_toLocaleString := fun _ => js "1/1/2026, 12:00:00 AM" |}.

(** The page numbers [1 .. n]. *)
Definition pageNumbers (n : Z) : list Z :=
  List.map (fun k => Z.of_nat k + 1)%Z (seq 0 (Z.to_nat n)).

(** Three stored files, told apart by their names. *)
Definition fileNamed (name : string) : FileDoc :=
  {| fd_id := js "65a1b2c3d4e5f60718293a4b";
     fd_filename := js name;
     fd_contentType := None;
     fd_length := 1;
     fd_uploadDate := 0;
     fd_metadata := None;
     fd_score := None;
     fd_highlights := None |}.

Definition threeFiles : list FileDoc :=
  [fileNamed "c.txt"; fileNamed "b.txt"; fileNamed "a.txt"].

(** A world whose bucket refuses every upload. *)
Definition fullBucketWorld : World :=
  {| db_aggregate := fun _ _ => Returns [];
     db_findOne := fun _ _ => Returns None;
     fs_readFile_utf8 := fun _ => Returns (js "{}");
     mammoth_extractRawText := fun _ => Returns [];
     bucket_upload := fun _ _ _ => Throws (js "write failed");
     date_toLocaleString := fun _ => js "1/1/2026, 12:00:00 AM" |}.

(* ================================================================== *)
(** ** Basic facts about strings and occurrences *)
(* ================================================================== *)

Section Basics.

Lemma jsstring_eqb_eq a b : jsstring_eqb a b = true <-> a = b.
Proof.
  unfold jsstring_eqb. destruct (list_eq_dec N.eq_dec a b); split; congruence.
Qed.

Lemma orS_self s : orS (Some s) [] = s.
Proof. destruct s; reflexivity. Qed.

Lemma join_nil_concat parts : join [] parts = concat parts.
Proof.
  induction parts as [|p [|q rest] IH]; [reflexivity| |].
  - simpl. now rewrite app_nil_r.
  - change (join [] (p :: q :: rest)) with (p ++ [] ++ join [] (q :: rest)).
    rewrite IH. reflexivity.
Qed.

Lemma lastN_length n s : (n <= length s)%nat -> length (lastN n s) = n.
Proof. intros H. unfold lastN. rewrite length_skipn. lia. Qed.

Lemma lastN_suffix n s : exists front, s = front ++ lastN n s.
Proof.
  exists (firstn (length s - n) s). unfold lastN. now rewrite firstn_skipn.
Qed.

Lemma startsWith_spec p s : startsWith p s = true -> exists rest, s = p ++ rest.
Proof.
  revert s. induction p as [|a p IH]; intros s H.
  - exists s. reflexivity.
  - destruct s as [|b s]; [discriminate|]. simpl in H.
    apply andb_true_iff in H. destruct H as [Hab Hp].
    apply N.eqb_eq in Hab. subst b.
    destruct (IH _ Hp) as [rest ->]. exists rest. reflexivity.
Qed.

Lemma occursIn_refl s : occursIn s s.
Proof. exists [], []. now rewrite app_nil_r. Qed.

Lemma occursIn_inside n a s b : occursIn n s -> occursIn n (a ++ s ++ b).
Proof.
  intros [x [y ->]]. exists (a ++ x), (y ++ b). now rewrite <- !app_assoc.
Qed.

Lemma occursIn_trans n m s : occursIn n m -> occursIn m s -> occursIn n s.
Proof. intros H [x [y ->]]. now apply occursIn_inside. Qed.

Lemma occursIn_here n b : occursIn n (n ++ b).
Proof. exists [], b. reflexivity. Qed.

Lemma occursIn_later n a s : occursIn n s -> occursIn n (a ++ s).
Proof. intros [x [y ->]]. exists (a ++ x), y. now rewrite <- app_assoc. Qed.

Lemma occursIn_cell a b c rest : occursIn (a ++ b ++ c) (a ++ b ++ c ++ rest).
Proof. exists [], rest. now rewrite <- !app_assoc. Qed.

Lemma occursIn_concat_map {A : Type} (f : A -> jsstring) (x : A) (xs : list A) :
  In x xs -> occursIn (f x) (concat (List.map f xs)).
Proof.
  intros Hin. apply in_split in Hin. destruct Hin as [l1 [l2 ->]].
  rewrite map_app, concat_app. simpl.
  apply occursIn_inside. apply occursIn_refl.
Qed.

Lemma occursInb_sound needle s : occursInb needle s = true -> occursIn needle s.
Proof.
  induction s as [|c s IH]; simpl; intros H.
  - rewrite orb_false_r in H. apply startsWith_spec in H.
    destruct H as [rest ->]. exists [], rest. reflexivity.
  - apply orb_true_iff in H. destruct H as [H|H].
    + apply startsWith_spec in H. destruct H as [rest ->]. exists [], rest. reflexivity.
    + destruct (IH H) as [b [a ->]]. exists (c :: b), a. reflexivity.
Qed.

End Basics.

(** Walk down a right-nested concatenation to the piece looked for. *)
Ltac find_run := repeat first [apply occursIn_here | apply occursIn_later].

(** The same for a table cell: an opening tag, a text and a closing tag. *)
Ltac find_cell := repeat first [apply occursIn_cell | apply occursIn_later].

(* ================================================================== *)
(** ** The HTML escaper *)
(* ================================================================== *)

Section Escaper.

Lemma replaceChar_app c by_ a b :
  replaceChar c by_ (a ++ b) = replaceChar c by_ a ++ replaceChar c by_ b.
Proof. unfold replaceChar. apply flat_map_app. Qed.

Lemma escapeString_app a b :
  escapeString (a ++ b) = escapeString a ++ escapeString b.
Proof. unfold escapeString. now rewrite !replaceChar_app. Qed.

Lemma escapeString_unit c : escapeString [c] = escUnit c.
Proof.
  unfold escUnit, AMP, LT, GT, DQUOTE, SQUOTE.
  destruct (N.eqb_spec c 38) as [->|Hamp]; [reflexivity|].
  destruct (N.eqb_spec c 60) as [->|Hlt]; [reflexivity|].
  destruct (N.eqb_spec c 62) as [->|Hgt]; [reflexivity|].
  destruct (N.eqb_spec c 34) as [->|Hdq]; [reflexivity|].
  destruct (N.eqb_spec c 39) as [->|Hsq]; [reflexivity|].
  unfold escapeString, replaceChar, AMP, LT, GT, DQUOTE, SQUOTE. simpl.
  apply N.eqb_neq in Hamp, Hlt, Hgt, Hdq, Hsq.
  rewrite Hamp. simpl. rewrite Hlt. simpl. rewrite Hgt. simpl.
  rewrite Hdq. simpl. rewrite Hsq. reflexivity.
Qed.

(** The five passes amount to one pass that rewrites each code unit. *)
Lemma escapeString_flat_map s : escapeString s = flat_map escUnit s.
Proof.
  induction s as [|c s IH]; [reflexivity|].
  change (c :: s) with ([c] ++ s).
  rewrite escapeString_app, escapeString_unit, IH. reflexivity.
Qed.

Lemma escapeString_cons c s : escapeString (c :: s) = escUnit c ++ escapeString s.
Proof. now rewrite !escapeString_flat_map. Qed.

Lemma escUnit_plain c : isSpecial c = false -> escUnit c = [c].
Proof.
  unfold isSpecial, escUnit. intros H.
  repeat (apply orb_false_iff in H; destruct H as [H ?]).
  now repeat match goal with E : (_ =? _) = false |- _ => rewrite E; clear E end.
Qed.

(** Text without special characters passes through unchanged. *)
Lemma escapeString_plain s : plainText s = true -> escapeString s = s.
Proof.
  induction s as [|c s IH]; [reflexivity|]. simpl. intros H.
  apply andb_true_iff in H. destruct H as [Hc Hs].
  rewrite escapeString_cons, IH by assumption.
  rewrite escUnit_plain; [reflexivity|]. now apply negb_true_iff.
Qed.

Lemma escapeHtml_VStr s : escapeHtml (VStr s) = escapeString s.
Proof. destruct s; reflexivity. Qed.

Lemma escUnit_cases c :
  (isSpecial c = true /\ In (escUnit c) entities) \/ (isSpecial c = false /\ escUnit c = [c]).
Proof.
  unfold isSpecial, escUnit, entities, AMP, LT, GT, DQUOTE, SQUOTE.
  destruct (N.eqb_spec c 38); [left; simpl; auto|].
  destruct (N.eqb_spec c 60); [left; simpl; auto|].
  destruct (N.eqb_spec c 62); [left; simpl; auto|].
  destruct (N.eqb_spec c 34); [left; simpl; auto 6|].
  destruct (N.eqb_spec c 39); [left; simpl; auto 7|].
  right. auto.
Qed.

Lemma escUnit_no_markup c x :
  In x (escUnit c) -> x <> LT /\ x <> GT /\ x <> DQUOTE /\ x <> SQUOTE.
Proof.
  destruct (escUnit_cases c) as [[_ Hin]|[Hns ->]].
  - unfold entities in Hin. simpl in Hin. unfold LT, GT, DQUOTE, SQUOTE.
    repeat (destruct Hin as [<-|Hin];
            [simpl; intros Hx;
             repeat (destruct Hx as [<-|Hx]; [repeat split; discriminate|]);
             contradiction|]).
    contradiction.
  - simpl. intros [<-|[]]. unfold isSpecial in Hns.
    repeat (apply orb_false_iff in Hns; destruct Hns as [Hns ?]).
    repeat match goal with E : (_ =? _) = false |- _ => apply N.eqb_neq in E end.
    auto.
Qed.

Lemma escapeString_no_markup s x :
  In x (escapeString s) -> x <> LT /\ x <> GT /\ x <> DQUOTE /\ x <> SQUOTE.
Proof.
  rewrite escapeString_flat_map. intros H. apply in_flat_map in H.
  destruct H as [c [_ Hc]]. eapply escUnit_no_markup; eassumption.
Qed.

Lemma ampsBeginEntities_escapeString s : ampsBeginEntities (escapeString s) = true.
Proof.
  induction s as [|c s IH]; [reflexivity|].
  rewrite escapeString_cons.
  destruct (escUnit_cases c) as [[_ Hin]|[Hns ->]].
  - unfold entities in Hin. simpl in Hin.
    repeat (destruct Hin as [<-|Hin]; [simpl; exact IH|]). contradiction.
  - simpl. unfold isSpecial in Hns.
    repeat (apply orb_false_iff in Hns; destruct Hns as [Hns ?]).
    rewrite Hns. exact IH.
Qed.

Lemma ampsBeginEntities_cons c rest :
  ampsBeginEntities (c :: rest)
  = (if c =? AMP then existsb (fun e => startsWith e (c :: rest)) entities else true)
    && ampsBeginEntities rest.
Proof. reflexivity. Qed.

Lemma ampsBeginEntities_spec s :
  ampsBeginEntities s = true ->
  forall pre post, s = pre ++ AMP :: post ->
  exists ent rest, In ent entities /\ AMP :: post = ent ++ rest.
Proof.
  intros H pre. revert s H. induction pre as [|a pre IH]; intros s H post ->.
  - rewrite app_nil_l, ampsBeginEntities_cons, N.eqb_refl in H.
    apply andb_true_iff in H. destruct H as [H _].
    apply existsb_exists in H. destruct H as [ent [Hin Hst]].
    apply startsWith_spec in Hst. destruct Hst as [rest Hrest].
    exists ent, rest. split; assumption.
  - rewrite <- app_comm_cons, ampsBeginEntities_cons in H.
    apply andb_true_iff in H. destruct H as [_ H].
    eapply IH; [exact H|reflexivity].
Qed.

(** C10. Whatever value the escaper is given, its result contains none of
    the characters [<], [>], double quote and single quote, and every
    ampersand of the result is the first character of one of the entities
    [&amp;], [&lt;], [&gt;], [&quot;], [&#39;]. [null], [undefined] and the
    empty string give the empty string; the number 0 gives ["0"]. *)
Theorem escapeHtml_output_is_inert (v : jsvalue) :
  (forall c, In c (escapeHtml v) -> c <> LT /\ c <> GT /\ c <> DQUOTE /\ c <> SQUOTE)
  /\ (forall pre post, escapeHtml v = pre ++ AMP :: post ->
      exists ent rest, In ent entities /\ AMP :: post = ent ++ rest)
  /\ escapeHtml VNull = []
  /\ escapeHtml VUndefined = []
  /\ escapeHtml (VStr []) = []
  /\ escapeHtml (VInt 0) = js "0".
Proof.
  assert (Hshape : escapeHtml v = [] \/ escapeHtml v = escapeString (ToString v)).
  { unfold escapeHtml. destruct (negb (truthy v) && notStrictZero v); auto. }
  split; [|split; [|repeat split; reflexivity]].
  - intros c Hc. destruct Hshape as [E|E]; rewrite E in Hc.
    + destruct Hc.
    + eapply escapeString_no_markup; eassumption.
  - intros pre post Hpre. apply (ampsBeginEntities_spec (escapeHtml v)) with (pre := pre); [|exact Hpre].
    destruct Hshape as [E|E]; rewrite E.
    + reflexivity.
    + apply ampsBeginEntities_escapeString.
Qed.

End Escaper.

(* ================================================================== *)
(** ** The highlight table *)
(* ================================================================== *)

Section HighlightTable.

Lemma snippetOf_split h before t after :
  textsOf h = before ++ t :: after ->
  snippetOf h
  = concat (List.map renderPart before) ++ renderPart t ++ concat (List.map renderPart after).
Proof.
  intros E. unfold snippetOf. rewrite join_nil_concat, E, map_app, concat_app.
  reflexivity.
Qed.

Lemma snippet_in_row h : occursIn (snippetOf h) (highlightRow h).
Proof. unfold highlightRow. cbv zeta. find_run. Qed.

Lemma row_in_table hs h :
  In h hs -> occursIn (highlightRow h) (buildHighlightTable (Some hs)).
Proof.
  intros Hin. destruct hs as [|h0 hs']; [destruct Hin|].
  assert (Hrows : occursIn (highlightRow h) (join [] (List.map highlightRow (h0 :: hs')))).
  { rewrite join_nil_concat. now apply occursIn_concat_map. }
  cbv beta iota zeta delta [buildHighlightTable].
  destruct (join [] (List.map highlightRow (h0 :: hs'))) as [|c rows] eqn:E.
  - rewrite join_nil_concat in E. discriminate E.
  - eapply occursIn_trans; [exact Hrows|]. find_run.
Qed.

Lemma renderPart_hit t :
  seg_type t = js "hit" -> renderPart t = marked (seg_value t).
Proof.
  intros E. unfold renderPart, marked. cbv zeta.
  apply jsstring_eqb_eq in E. rewrite E, orS_self. reflexivity.
Qed.

(** A segment that is not a hit goes through the escaper first, and the cap
    of 80 is applied to the escaped text. *)
Lemma renderPart_context t :
  seg_type t <> js "hit" ->
  renderPart t
  = if (AROUND_LEN <? length (escapeString (seg_value t)))%nat
    then ELLIPSIS ++ lastN AROUND_LEN (escapeString (seg_value t))
    else escapeString (seg_value t).
Proof.
  intros E. unfold renderPart. cbv zeta.
  destruct (jsstring_eqb (seg_type t) (js "hit")) eqn:B.
  - apply jsstring_eqb_eq in B. contradiction.
  - rewrite orS_self, escapeHtml_VStr. reflexivity.
Qed.

(** C3. In every highlight entry, a segment tagged "hit" is rendered as its
    whole text (HTML-escaped like all text of the page, each code unit kept
    as itself or written as its entity) inside the emphasis marker, and
    that marked run occurs in the snippet of the entry and in the table;
    no length bound applies to it. *)
Theorem hit_segment_is_rendered_in_full
    (hs : list Highlight) (h : Highlight) (t : TextSeg) :
  In h hs -> In t (textsOf h) -> seg_type t = js "hit" ->
  occursIn (marked (seg_value t)) (snippetOf h)
  /\ occursIn (marked (seg_value t)) (buildHighlightTable (Some hs))
  /\ marked (seg_value t)
     = js "<mark>" ++ flat_map escUnit (seg_value t) ++ js "</mark>"
  /\ (plainText (seg_value t) = true ->
      marked (seg_value t) = js "<mark>" ++ seg_value t ++ js "</mark>").
Proof.
  intros Hh Ht Hhit.
  assert (Hsnip : occursIn (marked (seg_value t)) (snippetOf h)).
  { unfold snippetOf. rewrite join_nil_concat, <- (renderPart_hit t Hhit).
    now apply occursIn_concat_map. }
  split; [exact Hsnip|]. split; [|split].
  - eapply occursIn_trans; [exact Hsnip|].
    eapply occursIn_trans; [apply snippet_in_row|]. now apply row_in_table.
  - unfold marked. now rewrite escapeHtml_VStr, escapeString_flat_map.
  - intros Hplain. unfold marked. now rewrite escapeHtml_VStr, escapeString_plain.
Qed.

(** The hit of the briefing entry, in its snippet and in the table. *)
Lemma hit_segment_is_rendered_in_full_witness :
  occursIn (marked (js "quarterly")) (snippetOf briefingHighlight)
  /\ occursIn (marked (js "quarterly")) (buildHighlightTable (Some [briefingHighlight])).
Proof.
  pose proof (hit_segment_is_rendered_in_full [briefingHighlight] briefingHighlight
                (mkSeg (js "quarterly") (js "hit"))
                (or_introl eq_refl) (or_intror (or_introl eq_refl)) eq_refl) as H.
  split; [exact (proj1 H)|exact (proj1 (proj2 H))].
Defined.

(** Where the escaper changes nothing the cap works on the text itself: a
    segment tagged "text" whose text has none of the characters the escaper
    rewrites is rendered between its neighbours as the ellipsis marker
    followed by exactly its last 80 characters when it is longer than 80
    characters, and verbatim otherwise. *)
Theorem plain_text_segment_rendering
    (h : Highlight) (before after : list TextSeg) (t : TextSeg) :
  textsOf h = before ++ t :: after ->
  seg_type t = js "text" ->
  plainText (seg_value t) = true ->
  snippetOf h
  = concat (List.map renderPart before)
    ++ (if (80 <? length (seg_value t))%nat
        then ELLIPSIS ++ lastN 80 (seg_value t)
        else seg_value t)
    ++ concat (List.map renderPart after)
  /\ ((80 < length (seg_value t))%nat ->
      length (lastN 80 (seg_value t)) = 80%nat
      /\ exists front, seg_value t = front ++ lastN 80 (seg_value t)).
Proof.
  intros Htexts Htag Hplain. split.
  - rewrite (snippetOf_split h before t after Htexts).
    rewrite renderPart_context by (rewrite Htag; discriminate).
    rewrite escapeString_plain by exact Hplain. reflexivity.
  - intros Hlong. split; [apply lastN_length; lia|apply lastN_suffix].
Qed.

(** A context of 100 letters before a hit: the last 80 are kept. *)
Lemma plain_text_segment_rendering_witness :
  snippetOf longContextHighlight
  = ELLIPSIS ++ repeat 98 80 ++ js "<mark>quarterly</mark>".
Proof.
  exact (proj1 (plain_text_segment_rendering longContextHighlight []
                  [mkSeg (js "quarterly") (js "hit")]
                  (mkSeg (repeat 97 20 ++ repeat 98 80) (js "text"))
                  eq_refl eq_refl eq_refl)).
Defined.

(** C2, where the code departs from it. The cap of 80 is meant for the
    context kept of a segment, but the code measures and cuts the text
    after escaping it. A "text" segment of exactly 80 characters, an
    ampersand followed by 79 letters, is therefore not shown verbatim: its
    escaped form has 84 characters, and the cut goes through the entity,
    leaving the marker, a semicolon and the letters. The ampersand is gone
    from the snippet. *)
Lemma text_segment_of_80_characters_is_cut :
  length (AMP :: repeat 97 79) = 80%nat
  /\ snippetOf (mkHighlight (js "metadata.content")
                  (Some [mkSeg (AMP :: repeat 97 79) (js "text")]))
     = ELLIPSIS ++ js ";" ++ repeat 97 79
  /\ ~ occursIn (AMP :: repeat 97 79)
        (snippetOf (mkHighlight (js "metadata.content")
                      (Some [mkSeg (AMP :: repeat 97 79) (js "text")]))).
Proof.
  split; [reflexivity|]. split; [vm_compute; reflexivity|].
  intros [b [a E]].
  assert (Hin : In AMP (snippetOf (mkHighlight (js "metadata.content")
                          (Some [mkSeg (AMP :: repeat 97 79) (js "text")])))).
  { rewrite E. apply in_or_app. right. left. reflexivity. }
  vm_compute in Hin.
  repeat (destruct Hin as [Hin|Hin]; [discriminate Hin|]).
  exact Hin.
Qed.

End HighlightTable.

(* ================================================================== *)
(** ** The search route *)
(* ================================================================== *)

Section SearchRoute.

Variable w : World.

Lemma searchCalls_app a b : searchCalls (a ++ b) = searchCalls a ++ searchCalls b.
Proof. unfold searchCalls. apply filter_app. Qed.

Lemma searchCalls_logs k results :
  searchCalls (concat (mapi_from k logResult results)) = [].
Proof.
  revert k. induction results as [|r rest IH]; intros k; [reflexivity|].
  simpl. apply IH.
Qed.

Lemma searchCalls_render query results :
  searchCalls (renderSearchPage w query results) = [].
Proof. reflexivity. Qed.

(** A truthy [q] leads to exactly one request, carrying [pipeline q]. *)
Lemma searchRoute_calls q :
  truthy q = true ->
  searchCalls (searchRoute w q) = [Aggregate FILES_COLLECTION (pipeline q)].
Proof.
  intros Hq. unfold searchRoute. rewrite Hq. cbn [negb].
  change (searchCalls (ConsoleLog ?l :: ?tr)) with (searchCalls tr).
  cbn [searchCalls filter]. f_equal.
  destruct (db_aggregate w FILES_COLLECTION (pipeline q)) as [results|err].
  - unfold mapi.
    change (filter _ ?t) with (searchCalls t).
    change (ConsoleLog ?a :: ?x ++ ConsoleLog ?b :: ?y)
      with ([ConsoleLog a] ++ x ++ [ConsoleLog b] ++ y).
    rewrite !searchCalls_app, searchCalls_logs, searchCalls_render. reflexivity.
  - reflexivity.
Qed.

(** C1. For a non-empty search string [q] the route sends one request, the
    pipeline built from [q]. Its first stage is a compound query with
    exactly three [should] clauses: an autocomplete clause on
    [metadata.name] with fuzzy [maxEdits] 1 and [prefixLength] 2; a text
    clause on the four paths keywords, type, sourcePath and content with
    boost 2 and the same fuzziness; a text clause on [metadata.briefing]
    with boost 2 and the same fuzziness. [minimumShouldMatch] is 1, the
    highlight request names the six fields, and the second stage limits the
    result to 50. *)
Theorem search_pipeline_shape (q : jsstring) :
  q <> [] ->
  searchCalls (searchRoute w (VStr q)) = [Aggregate FILES_COLLECTION (pipeline (VStr q))]
  /\ exists search c1 c2 c3 auto text2 text3,
      stage 0 (pipeline (VStr q)) = Some search
      /\ fieldPath ["$search"; "compound"; "should"]%string search = Some (VArr [c1; c2; c3])
      /\ c1 = obj [("autocomplete", auto)]%string
      /\ field "query" auto = Some (VStr q)
      /\ field "path" auto = Some (str "metadata.name")
      /\ fieldPath ["fuzzy"; "maxEdits"]%string auto = Some (VInt 1)
      /\ fieldPath ["fuzzy"; "prefixLength"]%string auto = Some (VInt 2)
      /\ c2 = obj [("text", text2)]%string
      /\ field "query" text2 = Some (VStr q)
      /\ field "path" text2
         = Some (VArr [str "metadata.keywords"; str "metadata.type";
                       str "metadata.sourcePath"; str "metadata.content"])
      /\ fieldPath ["score"; "boost"; "value"]%string text2 = Some (VInt 2)
      /\ field "fuzzy" text2 = field "fuzzy" auto
      /\ c3 = obj [("text", text3)]%string
      /\ field "query" text3 = Some (VStr q)
      /\ field "path" text3 = Some (str "metadata.briefing")
      /\ fieldPath ["score"; "boost"; "value"]%string text3 = Some (VInt 2)
      /\ field "fuzzy" text3 = field "fuzzy" auto
      /\ fieldPath ["$search"; "compound"; "minimumShouldMatch"]%string search
         = Some (VInt 1)
      /\ fieldPath ["$search"; "highlight"; "path"]%string search
         = Some (VArr [str "metadata.name"; str "metadata.type";
                       str "metadata.keywords"; str "metadata.briefing";
                       str "metadata.sourcePath"; str "metadata.content"])
      /\ stage 1 (pipeline (VStr q)) = Some (obj [("$limit", VInt 50)]%string).
Proof.
  intros Hq. split.
  - apply searchRoute_calls. destruct q; [contradiction|reflexivity].
  - do 7 eexists. repeat (split; [reflexivity|]). reflexivity.
Qed.

(** C4 (as the code has it). When [q] is absent or the empty string, the
    route renders the search page with an empty form and no results, and
    sends no request to the search service. *)
Theorem empty_query_sends_nothing (q : jsvalue) :
  q = VUndefined \/ q = VStr [] ->
  searchRoute w q
  = [ConsoleLog (js "[/search] called, q ="); Send 200 (SearchPage [] 0 [])]
  /\ searchCalls (searchRoute w q) = [].
Proof. intros [->| ->]; split; reflexivity. Qed.

End SearchRoute.

(** The request sent for the search string "quarterly". *)
Lemma search_pipeline_shape_witness :
  searchCalls (searchRoute emptyWorld (VStr (js "quarterly")))
  = [Aggregate FILES_COLLECTION (pipeline (VStr (js "quarterly")))].
Proof.
  refine (proj1 (search_pipeline_shape emptyWorld (js "quarterly") _)).
  discriminate.
Defined.

(** The empty search string sends nothing. *)
Lemma empty_query_sends_nothing_witness :
  searchCalls (searchRoute emptyWorld (VStr [])) = [].
Proof.
  exact (proj2 (empty_query_sends_nothing emptyWorld (VStr []) (or_intror eq_refl))).
Defined.

(** C4 fails as stated: a search string of one space is all whitespace
    ([trim] empties it), yet it is truthy, so the route sends the request. *)
Lemma whitespace_query_is_sent :
  trim (js " ") = []
  /\ searchCalls (searchRoute emptyWorld (VStr (js " ")))
     = [Aggregate FILES_COLLECTION (pipeline (VStr (js " ")))].
Proof. split; reflexivity. Qed.

(* ================================================================== *)
(** ** The pages and the text they show *)
(* ================================================================== *)

Section Pages.

(** In the search page the name, keywords and briefing cells hold the
    escaper's output. *)
Lemma searchRow_cells_escaped (w : World) (file : FileDoc) (i : nat) :
  occursIn (js "<td>"
            ++ escapeHtml (VStr (orS (md_name (metadataOf file)) (fd_filename file)))
            ++ js "</td>") (searchRow w file i)
  /\ occursIn (js "<td>" ++ escapeHtml (VStr (keywordsDisplay (metadataOf file)))
               ++ js "</td>") (searchRow w file i)
  /\ occursIn (js "<td>" ++ escapeHtml (VStr (orS (md_briefing (metadataOf file)) []))
               ++ js "</td>") (searchRow w file i).
Proof.
  unfold searchRow. cbv zeta.
  repeat split; find_cell.
Qed.

(** C5, where the code departs from it. The home listing puts the display
    name, the stored filename, the type, the keywords and the briefing of a
    file into its table cells as they are stored, with no escaping; for a
    file whose display name is a script element the row contains that
    element as markup, while the search page shows the same name escaped. *)
Theorem home_listing_inserts_stored_text_unescaped
    (w : World) (page pageSize : Z) (file : FileDoc) (i : nat) :
  occursIn (js "<td>" ++ orS (md_name (metadataOf file)) (fd_filename file) ++ js "</td>")
           (homeRow w page pageSize file i)
  /\ occursIn (js "<td>" ++ keywordsDisplay (metadataOf file) ++ js "</td>")
              (homeRow w page pageSize file i)
  /\ occursIn (js "<td>" ++ orS (md_briefing (metadataOf file)) [] ++ js "</td>")
              (homeRow w page pageSize file i)
  /\ occursIn (js "<td><script>alert(1)</script></td>")
              (homeRows emptyWorld 1 20 [markupFile])
  /\ occursIn (js "<td>&lt;script&gt;alert(1)&lt;/script&gt;</td>")
              (searchRow emptyWorld markupFile 0)
  /\ occursInb (js "<script>") (searchRow emptyWorld markupFile 0) = false.
Proof.
  split; [|split; [|split]].
  1-3: unfold homeRow; cbv zeta;
       find_cell.
  split; [|split].
  - apply occursInb_sound. vm_compute. reflexivity.
  - apply occursInb_sound. vm_compute. reflexivity.
  - vm_compute. reflexivity.
Qed.

End Pages.

(* ================================================================== *)
(** ** Download *)
(* ================================================================== *)

Section Download.

Variable w : World.

Lemma dispositionHeader_valid fileDoc :
  validHeaderValue (dispositionHeader fileDoc) = validHeaderValue (fd_filename fileDoc).
Proof.
  unfold dispositionHeader, validHeaderValue. rewrite !forallb_app.
  change (forallb validHeaderUnit (js "attachment; filename=")) with true.
  change (forallb validHeaderUnit [DQUOTE]) with true.
  now rewrite andb_true_r.
Qed.

(** C8 (as the code has it). [GET /files/:id] answers by what the
    identifier is: one the ObjectId constructor rejects gets status 500
    from the route's error handler; a well-formed one with no record gets
    status 404 and the body "File not found"; one with a record whose
    content type and filename are text a header can carry gets the
    Content-Type header (the record's type, or application/octet-stream),
    a Content-Disposition header of the attachment kind naming the file,
    and the blob piped to the response. A record whose content type or
    filename has a code unit no header can carry gets status 500 and no
    stream. *)
Theorem download_by_identifier (idParam : jsstring) :
  (forall e, newObjectId idParam = Throws e ->
     filesIdRoute w idParam = [ConsoleError e; Send 500 (Text (js "Download error"))])
  /\ (forall id, newObjectId idParam = Returns id ->
       db_findOne w FILES_COLLECTION id = Returns None ->
       filesIdRoute w idParam
       = [FindOne FILES_COLLECTION id; Send 404 (Text (js "File not found"))])
  /\ (forall id fileDoc, newObjectId idParam = Returns id ->
       db_findOne w FILES_COLLECTION id = Returns (Some fileDoc) ->
       validHeaderValue (contentTypeHeader fileDoc) = true ->
       validHeaderValue (fd_filename fileDoc) = true ->
       filesIdRoute w idParam
       = [FindOne FILES_COLLECTION id;
          SetHeader (js "Content-Type")
            (orS (fd_contentType fileDoc) (js "application/octet-stream"));
          SetHeader (js "Content-Disposition")
            (js "attachment; filename=" ++ [DQUOTE] ++ fd_filename fileDoc ++ [DQUOTE]);
          PipeDownload id]
       /\ errorStatuses (filesIdRoute w idParam) = [])
  /\ (forall id fileDoc, newObjectId idParam = Returns id ->
       db_findOne w FILES_COLLECTION id = Returns (Some fileDoc) ->
       validHeaderValue (contentTypeHeader fileDoc) = false
       \/ validHeaderValue (fd_filename fileDoc) = false ->
       errorStatuses (filesIdRoute w idParam) = [500]
       /\ ~ In (PipeDownload id) (filesIdRoute w idParam)).
Proof.
  unfold filesIdRoute, downloadHandler.
  split; [|split; [|split]].
  - intros e ->. reflexivity.
  - intros id -> ->. reflexivity.
  - intros id fileDoc -> -> Hct Hname.
    rewrite dispositionHeader_valid, Hct, Hname. split; reflexivity.
  - intros id fileDoc -> -> Hbad. rewrite dispositionHeader_valid.
    destruct (validHeaderValue (contentTypeHeader fileDoc)) eqn:Hct.
    + destruct Hbad as [Hbad|Hbad]; [discriminate Hbad|]. rewrite Hbad.
      split; [reflexivity|]. simpl.
      intros [H|[H|[H|[H|[]]]]]; discriminate H.
    + split; [reflexivity|]. simpl.
      intros [H|[H|[H|[]]]]; discriminate H.
Qed.

(** The download route of the search page answers as [GET /files/:id]. *)
Lemma searchDownloadRoute_same (idParam : jsstring) :
  searchDownloadRoute w idParam = filesIdRoute w idParam.
Proof. reflexivity. Qed.

End Download.

(** C8 fails as stated: ["abc"] identifies no stored file (the collection
    is empty), and the response is status 500, not 404. *)
Lemma unknown_malformed_id_gets_500 :
  db_findOne emptyWorld FILES_COLLECTION (js "abc") = Returns None
  /\ errorStatuses (filesIdRoute emptyWorld (js "abc")) = [500]
  /\ filesIdRoute emptyWorld (js "abc")
     = [ConsoleError (js "input must be a 24 character hex string, 12 byte Uint8Array, or an integer");
        Send 500 (Text (js "Download error"))].
Proof. repeat split. Qed.

(** A record is found, but its filename cannot go into a header: the
    Content-Type header is set, the second [setHeader] throws, and the
    answer is status 500 with no stream. *)
Lemma found_record_with_wide_filename_gets_500 :
  filesIdRoute wideNameWorld (js "65a1b2c3d4e5f60718293a4b")
  = [FindOne FILES_COLLECTION (js "65a1b2c3d4e5f60718293a4b");
     SetHeader (js "Content-Type") MIME_JSON;
     ConsoleError INVALID_HEADER_CHAR;
     Send 500 (Text (js "Download error"))].
Proof. reflexivity. Qed.

(** A well-formed identifier with no record behind it, and one with a
    record whose type and name a header can carry. *)
Lemma download_by_identifier_witness :
  filesIdRoute emptyWorld (js "65a1b2c3d4e5f60718293a4b")
  = [FindOne FILES_COLLECTION (js "65a1b2c3d4e5f60718293a4b");
     Send 404 (Text (js "File not found"))]
  /\ filesIdRoute oneFileWorld (js "65a1b2c3d4e5f60718293a4b")
     = [FindOne FILES_COLLECTION (js "65a1b2c3d4e5f60718293a4b");
        SetHeader (js "Content-Type") MIME_JSON;
        SetHeader (js "Content-Disposition")
          (js "attachment; filename=" ++ [DQUOTE] ++ js "report.json" ++ [DQUOTE]);
        PipeDownload (js "65a1b2c3d4e5f60718293a4b")].
Proof.
  split.
  - exact (proj1 (proj2 (download_by_identifier emptyWorld (js "65a1b2c3d4e5f60718293a4b")))
             (js "65a1b2c3d4e5f60718293a4b") eq_refl eq_refl).
  - exact (proj1 (proj1 (proj2 (proj2
             (download_by_identifier oneFileWorld (js "65a1b2c3d4e5f60718293a4b"))))
             (js "65a1b2c3d4e5f60718293a4b") markupFile eq_refl eq_refl eq_refl eq_refl)).
Defined.

(* ================================================================== *)
(** ** Upload *)
(* ================================================================== *)

Section Upload.

Variable w : World.

Lemma storedMetadata_skip (pre : list event) tr :
  Forall (fun e => match e with OpenUploadStream _ _ _ => False | _ => True end) pre ->
  storedMetadata (pre ++ tr) = storedMetadata tr.
Proof.
  induction 1 as [|e pre He _ IH]; [reflexivity|].
  simpl. destruct e; try exact IH. contradiction.
Qed.

Lemma extractContent_steps path mime :
  Forall (fun e => match e with OpenUploadStream _ _ _ => False | _ => True end)
         (fst (extractContent w path mime)).
Proof.
  unfold extractContent.
  repeat match goal with
         | |- context [if ?b then _ else _] => destruct b
         | |- context [match ?o with Returns _ => _ | Throws _ => _ end] => destruct o
         end; simpl; repeat constructor.
Qed.

Lemma uploadExtraction_steps f :
  Forall (fun e => match e with OpenUploadStream _ _ _ => False | _ => True end)
         (fst (uploadExtraction w f)).
Proof.
  unfold uploadExtraction.
  destruct ((f_size f <=? TEN_MB) && shouldExtractContent (Some f)).
  - apply extractContent_steps.
  - constructor.
Qed.

(** The document handed to the bucket is the one [uploadMetadata] builds. *)
Lemma storedMetadata_uploadRoute f form :
  storedMetadata (uploadRoute w (Some f) form) = Some (uploadMetadata w f form).
Proof.
  unfold uploadRoute. cbv zeta.
  rewrite storedMetadata_skip by apply uploadExtraction_steps. reflexivity.
Qed.

Lemma toLowerCase_nonempty m : toLowerCase m <> [] -> exists c rest, m = c :: rest.
Proof. destruct m as [|c rest]; [intros H; now elim H|eauto]. Qed.

(** A declared type that lower-cases to application/json, on a file within
    the size limit, sends the route to [readFile]. *)
Lemma uploadExtraction_json f m :
  f_mimetype f = Some m -> toLowerCase m = MIME_JSON -> f_size f <= TEN_MB ->
  uploadExtraction w f
  = match fs_readFile_utf8 w (f_path f) with
    | Returns s => ([ReadFile (f_path f)], Some s)
    | Throws _ =>
        ([ReadFile (f_path f); ConsoleError (js "Content extraction failed:")], None)
    end.
Proof.
  intros Hm Hlow Hsize.
  destruct (toLowerCase_nonempty m) as [c [rest ->]]; [rewrite Hlow; discriminate|].
  unfold uploadExtraction, shouldExtractContent, extractContent.
  rewrite Hm. cbn [orS]. rewrite Hlow.
  apply N.leb_le in Hsize. rewrite Hsize. reflexivity.
Qed.

Lemma contentField_not_empty c : contentField c <> Some [].
Proof. destruct c as [[|x rest]|]; simpl; discriminate. Qed.

(** C6 (as the code has it). The document handed to the bucket is the
    route's metadata object. For an upload declared as application/json
    (in any letter case) of at most 10MB whose file reads as a non-empty
    text, [content] is that text; when the file reads as the empty text,
    [content] is absent; for every upload larger than 10MB, [content] is
    absent; and [content] is never the empty string. *)
Theorem json_upload_content (f : UploadedFile) (form : UploadForm) :
  storedMetadata (uploadRoute w (Some f) form) = Some (uploadMetadata w f form)
  /\ (forall m text,
        f_mimetype f = Some m -> toLowerCase m = MIME_JSON -> f_size f <= TEN_MB ->
        fs_readFile_utf8 w (f_path f) = Returns text -> text <> [] ->
        md_content (uploadMetadata w f form) = Some text)
  /\ (forall m,
        f_mimetype f = Some m -> toLowerCase m = MIME_JSON -> f_size f <= TEN_MB ->
        fs_readFile_utf8 w (f_path f) = Returns [] ->
        md_content (uploadMetadata w f form) = None)
  /\ (TEN_MB < f_size f -> md_content (uploadMetadata w f form) = None)
  /\ md_content (uploadMetadata w f form) <> Some [].
Proof.
  split; [apply storedMetadata_uploadRoute|].
  split; [|split; [|split]].
  - intros m text Hm Hlow Hsize Hread Htext.
    unfold uploadMetadata, buildMetadata. cbn [md_content].
    rewrite (uploadExtraction_json f m Hm Hlow Hsize), Hread. cbn [snd].
    destruct text; [contradiction|reflexivity].
  - intros m Hm Hlow Hsize Hread.
    unfold uploadMetadata, buildMetadata. cbn [md_content].
    rewrite (uploadExtraction_json f m Hm Hlow Hsize), Hread. reflexivity.
  - intros Hbig. unfold uploadMetadata, buildMetadata, uploadExtraction.
    cbn [md_content]. apply N.leb_gt in Hbig. rewrite Hbig. reflexivity.
  - unfold uploadMetadata, buildMetadata. cbn [md_content].
    apply contentField_not_empty.
Qed.

Lemma shouldExtract_kinds f :
  shouldExtractContent (Some f) = true ->
  (jsstring_eqb (mimeOf f) MIME_JSON || jsstring_eqb (mimeOf f) MIME_TEXT_JSON)
  || (jsstring_eqb (mimeOf f) MIME_XML || jsstring_eqb (mimeOf f) MIME_TEXT_XML
      || endsWith (js "+xml") (mimeOf f))
  || jsstring_eqb (mimeOf f) MIME_DOCX = true.
Proof.
  unfold shouldExtractContent, mimeOf.
  destruct (f_mimetype f) as [[|c m]|]; try discriminate.
  cbn [orS].
  destruct (jsstring_eqb _ MIME_JSON || jsstring_eqb _ MIME_TEXT_JSON); [reflexivity|].
  destruct (jsstring_eqb _ MIME_XML || jsstring_eqb _ MIME_TEXT_XML || endsWith _ _);
    [reflexivity|].
  destruct (jsstring_eqb _ MIME_DOCX); [reflexivity|discriminate].
Qed.

(** When the extractor throws, the route logs the failure and goes on with
    [contentString] undefined. *)
Lemma uploadExtraction_failure f e :
  extractionAttempted f = true ->
  extractorOutcome w f = Throws e ->
  uploadExtraction w f
  = ([extractorStep f; ConsoleError (js "Content extraction failed:")], None).
Proof.
  unfold extractionAttempted, extractorOutcome, extractorStep.
  intros Hatt Hthrow. unfold uploadExtraction. rewrite Hatt.
  apply andb_true_iff in Hatt. destruct Hatt as [_ Hshould].
  apply shouldExtract_kinds in Hshould.
  unfold extractContent. fold (mimeOf f).
  destruct (jsstring_eqb (mimeOf f) MIME_DOCX) eqn:Hdocx.
  - apply jsstring_eqb_eq in Hdocx. rewrite Hdocx.
    change (jsstring_eqb MIME_DOCX MIME_JSON) with false.
    change (jsstring_eqb MIME_DOCX MIME_TEXT_JSON) with false.
    change (jsstring_eqb MIME_DOCX MIME_XML) with false.
    change (jsstring_eqb MIME_DOCX MIME_TEXT_XML) with false.
    change (endsWith (js "+xml") MIME_DOCX) with false.
    change (jsstring_eqb MIME_DOCX MIME_DOCX) with true.
    cbn [orb]. rewrite Hthrow. reflexivity.
  - rewrite orb_false_r in Hshould.
    destruct (jsstring_eqb (mimeOf f) MIME_JSON || jsstring_eqb (mimeOf f) MIME_TEXT_JSON).
    + rewrite Hthrow. reflexivity.
    + cbn [orb] in Hshould. rewrite Hshould, Hthrow. reflexivity.
Qed.

(** C9. When the route attempts extraction and the extractor throws, the
    upload goes on: the failure is logged, the document handed to the
    bucket is the one built with no content, and once the bucket has
    stored the file the response is the redirect to the listing, with no
    error status sent. The other failures are not recovered: a failed
    bucket write, a failed search and a failed lookup each end in a
    status 500. *)
Theorem extraction_failure_does_not_fail_upload
    (f : UploadedFile) (form : UploadForm) (e : jsstring) :
  extractionAttempted f = true ->
  extractorOutcome w f = Throws e ->
  storedMetadata (uploadRoute w (Some f) form)
  = Some (buildMetadata f form (mimeOf f) None)
  /\ md_content (buildMetadata f form (mimeOf f) None) = None
  /\ In (ConsoleError (js "Content extraction failed:")) (uploadRoute w (Some f) form)
  /\ (bucket_upload w (f_originalname f) (mimeOf f)
        (buildMetadata f form (mimeOf f) None) = Returns tt ->
      uploadRoute w (Some f) form
      = [extractorStep f;
         ConsoleError (js "Content extraction failed:");
         OpenUploadStream (f_originalname f) (mimeOf f)
           (buildMetadata f form (mimeOf f) None);
         Unlink (f_path f);
         RedirectTo (js "/")]
      /\ errorStatuses (uploadRoute w (Some f) form) = [])
  /\ (forall e', bucket_upload w (f_originalname f) (mimeOf f)
                  (buildMetadata f form (mimeOf f) None) = Throws e' ->
      errorStatuses (uploadRoute w (Some f) form) = [500])
  /\ (forall q e', truthy q = true ->
      db_aggregate w FILES_COLLECTION (pipeline q) = Throws e' ->
      errorStatuses (searchRoute w q) = [500])
  /\ (forall idParam id e', newObjectId idParam = Returns id ->
      db_findOne w FILES_COLLECTION id = Throws e' ->
      errorStatuses (filesIdRoute w idParam) = [500]).
Proof.
  intros Hatt Hthrow.
  pose proof (uploadExtraction_failure f e Hatt Hthrow) as Hext.
  assert (Hmd : uploadMetadata w f form = buildMetadata f form (mimeOf f) None).
  { unfold uploadMetadata. rewrite Hext. reflexivity. }
  assert (Hroute : uploadRoute w (Some f) form
                   = [extractorStep f; ConsoleError (js "Content extraction failed:")]
                     ++ OpenUploadStream (f_originalname f) (mimeOf f)
                          (buildMetadata f form (mimeOf f) None)
                     :: match bucket_upload w (f_originalname f) (mimeOf f)
                                (buildMetadata f form (mimeOf f) None) with
                        | Returns _ => [Unlink (f_path f); RedirectTo (js "/")]
                        | Throws _ => [ConsoleError (js "Upload error:");
                                       Send 500 (Text (js "Upload failed"))]
                        end).
  { unfold uploadRoute. cbv zeta. rewrite Hmd, Hext. reflexivity. }
  split; [rewrite storedMetadata_uploadRoute, Hmd; reflexivity|].
  split; [reflexivity|].
  split; [rewrite Hroute; right; left; reflexivity|].
  split; [|split; [|split]].
  - intros Hok. rewrite Hroute, Hok. split; [reflexivity|].
    unfold extractorStep. destruct (jsstring_eqb (mimeOf f) MIME_DOCX); reflexivity.
  - intros e' Hfail. rewrite Hroute, Hfail.
    unfold extractorStep. destruct (jsstring_eqb (mimeOf f) MIME_DOCX); reflexivity.
  - intros q e' Hq Hfail. unfold searchRoute. rewrite Hq, Hfail. reflexivity.
  - intros idParam id e' Hid Hfail. unfold filesIdRoute, downloadHandler.
    rewrite Hid, Hfail. reflexivity.
Qed.

End Upload.

(** The report uploaded while its temporary file cannot be read. *)
Lemma extraction_failure_does_not_fail_upload_witness :
  uploadRoute unreadableWorld (Some reportFile) reportForm
  = [ReadFile (js "/tmp/3d4e5f");
     ConsoleError (js "Content extraction failed:");
     OpenUploadStream (js "report.json") MIME_JSON
       (buildMetadata reportFile reportForm MIME_JSON None);
     Unlink (js "/tmp/3d4e5f");
     RedirectTo (js "/")].
Proof.
  exact (proj1 (proj1 (proj2 (proj2 (proj2
           (extraction_failure_does_not_fail_upload unreadableWorld reportFile
              reportForm (js "ENOENT") eq_refl eq_refl)))) eq_refl)).
Defined.

(** The report uploaded when its file reads as a JSON text. *)
Lemma json_upload_content_witness :
  md_content (uploadMetadata reportWorld reportFile reportForm) = Some (js "{}").
Proof.
  refine (proj1 (proj2 (json_upload_content reportWorld reportFile reportForm))
            MIME_JSON (js "{}") eq_refl eq_refl _ eq_refl _).
  - discriminate.
  - discriminate.
Defined.

(** C6 fails as stated: an empty file declared as application/json is
    within the size limit and reads as the empty text, and the document
    handed to the bucket has no [content] field, where the claim has it
    equal to that text. *)
Lemma empty_json_upload_has_no_content :
  f_mimetype emptyJsonFile = Some MIME_JSON
  /\ f_size emptyJsonFile <= TEN_MB
  /\ fs_readFile_utf8 emptyWorld (f_path emptyJsonFile) = Returns []
  /\ exists md,
       storedMetadata (uploadRoute emptyWorld (Some emptyJsonFile) reportForm) = Some md
       /\ md_content md = None.
Proof.
  split; [reflexivity|]. split; [discriminate|]. split; [reflexivity|].
  eexists. split; reflexivity.
Qed.

(* ================================================================== *)
(** ** Keywords: parsing and display *)
(* ================================================================== *)

Section Keywords.

Lemma keywordArray_parse s : keywordArray (Some s) = parseKeywords s.
Proof. destruct s; reflexivity. Qed.

Lemma split_nocomma a : ~ In COMMA a -> split COMMA a = [a].
Proof.
  induction a as [|x a IH]; intros H; [reflexivity|]. simpl.
  destruct (N.eqb_spec x COMMA) as [->|_].
  - exfalso. apply H. now left.
  - rewrite IH; [reflexivity|]. intros Hin. apply H. now right.
Qed.

Lemma split_app_comma a b :
  ~ In COMMA a -> split COMMA (a ++ COMMA :: b) = a :: split COMMA b.
Proof.
  induction a as [|x a IH]; intros H; simpl.
  - reflexivity.
  - destruct (N.eqb_spec x COMMA) as [->|_].
    + exfalso. apply H. now left.
    + rewrite IH; [reflexivity|]. intros Hin. apply H. now right.
Qed.

Lemma split_parts_nocomma s p : In p (split COMMA s) -> ~ In COMMA p.
Proof.
  revert p. induction s as [|x s IH]; intros p; simpl.
  - intros [<-|[]]. intros [].
  - destruct (N.eqb_spec x COMMA) as [->|Hx].
    + intros [<-|Hp]; [intros []|now apply IH].
    + destruct (split COMMA s) as [|p0 ps].
      * intros [<-|[]]. intros [E|[]]. now apply Hx.
      * intros [<-|Hp].
        -- intros [E|Hin]; [now apply Hx|]. apply (IH p0); [now left|exact Hin].
        -- apply IH. now right.
Qed.

Lemma split_join ks :
  Forall (fun k => ~ In COMMA k) ks -> ks <> [] ->
  split COMMA (join (js ", ") ks) = hd [] ks :: List.map (cons SPACE) (tl ks).
Proof.
  induction ks as [|k rest IH]; intros Hall Hne; [contradiction|].
  inversion Hall as [|? ? Hk Hrest]; subst.
  destruct rest as [|k2 rest].
  - simpl. now apply split_nocomma.
  - change (join (js ", ") (k :: k2 :: rest))
      with (k ++ COMMA :: SPACE :: join (js ", ") (k2 :: rest)).
    rewrite split_app_comma by exact Hk.
    change (split COMMA (SPACE :: ?x))
      with (match split COMMA x with
            | [] => [[SPACE]]
            | p :: ps => (SPACE :: p) :: ps
            end).
    rewrite IH by (exact Hrest || discriminate). reflexivity.
Qed.

Lemma trimStart_idem s : trimStart (trimStart s) = trimStart s.
Proof.
  induction s as [|c s IH]; [reflexivity|]. simpl.
  destruct (isWhiteSpace c) eqn:E; [exact IH|]. simpl. now rewrite E.
Qed.

Lemma trimStart_snoc l c :
  isWhiteSpace c = false -> trimStart (l ++ [c]) = trimStart l ++ [c].
Proof.
  intros Hc. induction l as [|x l IH]; simpl.
  - now rewrite Hc.
  - destruct (isWhiteSpace x); [exact IH|reflexivity].
Qed.

Lemma trimStart_head s :
  trimStart s = [] \/ exists c r, trimStart s = c :: r /\ isWhiteSpace c = false.
Proof.
  induction s as [|c s IH]; [now left|]. simpl.
  destruct (isWhiteSpace c) eqn:E; [exact IH|]. right. eauto.
Qed.

Lemma trimStart_fixed c r : isWhiteSpace c = false -> trimStart (c :: r) = c :: r.
Proof. intros H. simpl. now rewrite H. Qed.

(** Trimming the end leaves a trimmed start trimmed. *)
Lemma trimStart_trimEnd y : trimStart y = y -> trimStart (trimEnd y) = trimEnd y.
Proof.
  intros Hy. destruct (trimStart_head y) as [E|[c [r [E Hc]]]]; rewrite Hy in E; subst y.
  - reflexivity.
  - unfold trimEnd. simpl rev. rewrite trimStart_snoc by exact Hc.
    rewrite rev_app_distr. simpl. now rewrite Hc.
Qed.

Lemma trimEnd_idem y : trimEnd (trimEnd y) = trimEnd y.
Proof. unfold trimEnd. now rewrite rev_involutive, trimStart_idem. Qed.

Lemma trim_idem s : trim (trim s) = trim s.
Proof.
  unfold trim.
  rewrite (trimStart_trimEnd (trimStart s)) by apply trimStart_idem.
  apply trimEnd_idem.
Qed.

Lemma trim_space k : trim (SPACE :: k) = trim k.
Proof. reflexivity. Qed.

Lemma trimStart_incl s x : In x (trimStart s) -> In x s.
Proof.
  induction s as [|c s IH]; [easy|]. simpl.
  destruct (isWhiteSpace c); [intros H; right; now apply IH|easy].
Qed.

Lemma trim_incl s x : In x (trim s) -> In x s.
Proof.
  unfold trim, trimEnd. intros H.
  apply in_rev in H. apply trimStart_incl in H. apply in_rev in H.
  now apply trimStart_incl.
Qed.

Lemma trimStart_whitespace k : forallb isWhiteSpace k = true -> trimStart k = [].
Proof.
  induction k as [|c k IH]; [reflexivity|]. simpl. intros H.
  apply andb_true_iff in H. destruct H as [Hc Hk]. rewrite Hc. now apply IH.
Qed.

Lemma wellFormed_not_whitespace k :
  wellFormedKeyword k -> forallb isWhiteSpace k = false.
Proof.
  intros [Hne [Htrim _]]. destruct (forallb isWhiteSpace k) eqn:E; [|reflexivity].
  exfalso. apply Hne. rewrite <- Htrim. unfold trim.
  now rewrite (trimStart_whitespace k E).
Qed.

(** Every entry the parser keeps is well formed. *)
Lemma parseKeywords_wellFormed s : Forall wellFormedKeyword (parseKeywords s).
Proof.
  apply Forall_forall. intros k Hk. unfold parseKeywords in Hk.
  apply filter_In in Hk. destruct Hk as [Hin Hne].
  apply in_map_iff in Hin. destruct Hin as [p [<- Hp]].
  repeat split.
  - intros E. rewrite E in Hne. discriminate.
  - apply trim_idem.
  - intros Hc. apply trim_incl in Hc. exact (split_parts_nocomma s p Hp Hc).
Qed.

Lemma keywordArray_wellFormed kw : Forall wellFormedKeyword (keywordArray kw).
Proof.
  destruct kw as [s|]; [|constructor].
  rewrite keywordArray_parse. apply parseKeywords_wellFormed.
Qed.

Lemma map_trim_wellFormed ks : Forall wellFormedKeyword ks -> List.map trim ks = ks.
Proof.
  induction 1 as [|k ks [_ [Hk _]] _ IH]; [reflexivity|]. simpl. now rewrite Hk, IH.
Qed.

Lemma filter_wellFormed ks :
  Forall wellFormedKeyword ks ->
  filter (fun k : jsstring => match k with [] => false | _ => true end) ks = ks.
Proof.
  induction 1 as [|k ks [Hk _] _ IH]; [reflexivity|]. simpl.
  destruct k; [contradiction|]. now rewrite IH.
Qed.

(** Joining a well-formed list and parsing the result gives the list back. *)
Lemma parse_join ks :
  Forall wellFormedKeyword ks -> parseKeywords (join (js ", ") ks) = ks.
Proof.
  intros Hall. destruct ks as [|k rest]; [reflexivity|].
  unfold parseKeywords. rewrite split_join.
  - cbn [hd tl List.map]. rewrite map_map.
    rewrite (map_ext (fun x => trim (SPACE :: x)) trim) by (intros; apply trim_space).
    change (trim k :: List.map trim rest) with (List.map trim (k :: rest)).
    rewrite map_trim_wellFormed by exact Hall. now apply filter_wellFormed.
  - eapply Forall_impl; [|exact Hall]. now intros x [_ [_ Hx]].
  - discriminate.
Qed.

(** C7. For the document an upload stores, the keywords string the pages
    display is the stored sequence joined with a comma and a space; parsing
    that string again (split on commas, trim, drop the empty entries, which
    is what the upload route does with a submitted field) gives the stored
    sequence; and no stored entry is empty or made of whitespace only. *)
Theorem keywords_display_round_trip (w : World) (f : UploadedFile) (form : UploadForm) :
  md_keywords (uploadMetadata w f form) = KwList (keywordArray (keywords form))
  /\ keywordsDisplay (uploadMetadata w f form)
     = join (js ", ") (keywordArray (keywords form))
  /\ parseKeywords (keywordsDisplay (uploadMetadata w f form))
     = keywordArray (keywords form)
  /\ keywordArray (Some (keywordsDisplay (uploadMetadata w f form)))
     = keywordArray (keywords form)
  /\ Forall (fun k => k <> [] /\ forallb isWhiteSpace k = false)
            (keywordArray (keywords form)).
Proof.
  assert (Hdisp : keywordsDisplay (uploadMetadata w f form)
                  = join (js ", ") (keywordArray (keywords form))) by reflexivity.
  split; [reflexivity|]. split; [exact Hdisp|].
  split; [|split].
  - rewrite Hdisp. apply parse_join, keywordArray_wellFormed.
  - rewrite keywordArray_parse, Hdisp. apply parse_join, keywordArray_wellFormed.
  - eapply Forall_impl; [|apply keywordArray_wellFormed].
    intros k Hk. split; [apply Hk|now apply wellFormed_not_whitespace].
Qed.

End Keywords.

(* ================================================================== *)
(** ** The paged listings *)
(* ================================================================== *)

Section Listings.

Lemma resolvePage_min q : (1 <= resolvePage q)%Z.
Proof. unfold resolvePage. lia. Qed.

Lemma resolvePageSize_min q : (1 <= resolvePageSize q)%Z.
Proof. unfold resolvePageSize. lia. Qed.

(** Every query value resolves to a page and a page size of at least 1.
    A value [parseInt] reads no number from, and the number zero, give the
    defaults 1 and 20; a negative number gives 1 for both; a positive
    number is taken as it is. A missing parameter is read as no number. *)
Theorem page_parameters_resolved (q : jsvalue) :
  (1 <= resolvePage q)%Z
  /\ (1 <= resolvePageSize q)%Z
  /\ (parseInt q = None \/ parseInt q = Some 0%Z ->
      resolvePage q = 1%Z /\ resolvePageSize q = DEFAULT_PAGE_SIZE)
  /\ (forall n, parseInt q = Some n -> (n < 0)%Z ->
      resolvePage q = 1%Z /\ resolvePageSize q = 1%Z)
  /\ (forall n, parseInt q = Some n -> (1 <= n)%Z ->
      resolvePage q = n /\ resolvePageSize q = n)
  /\ parseInt VUndefined = None
  /\ parseInt (VStr []) = None.
Proof.
  unfold resolvePage, resolvePageSize, DEFAULT_PAGE_SIZE.
  split; [lia|]. split; [lia|]. split; [|split; [|split; [|split; reflexivity]]].
  - intros [E|E]; rewrite E; split; reflexivity.
  - intros n E Hn. rewrite E. unfold orNum.
    destruct (Z.eqb_spec n 0); lia.
  - intros n E Hn. rewrite E. unfold orNum.
    destruct (Z.eqb_spec n 0); lia.
Qed.

Lemma ceilDiv_bounds a b :
  (0 < b)%Z -> (a <= ceilDiv a b * b < a + b)%Z.
Proof.
  intros Hb. unfold ceilDiv.
  pose proof (Z.div_mod (- a) b ltac:(lia)) as Hdm.
  pose proof (Z.mod_pos_bound (- a) b Hb) as Hmod.
  nia.
Qed.

Lemma totalPagesOf_bounds total ps :
  (0 <= total)%Z -> (1 <= ps)%Z ->
  (1 <= totalPagesOf total ps)%Z
  /\ (total <= totalPagesOf total ps * ps)%Z
  /\ ((totalPagesOf total ps - 1) * ps < total \/ total = 0)%Z.
Proof.
  intros Ht Hps. unfold totalPagesOf.
  pose proof (ceilDiv_bounds total ps ltac:(lia)) as Hc.
  destruct (Z.max_spec (ceilDiv total ps) 1) as [[Hlt ->]|[Hge ->]]; nia.
Qed.

Lemma findPage_length sorted page ps :
  length (findPage sorted page ps)
  = Nat.min (Z.to_nat ps) (length sorted - Z.to_nat ((page - 1) * ps)).
Proof. unfold findPage. now rewrite length_firstn, length_skipn. Qed.

Lemma in_firstn_list {A : Type} (n : nat) (l : list A) x : In x (firstn n l) -> In x l.
Proof.
  intros H. rewrite <- (firstn_skipn n l). apply in_or_app. now left.
Qed.

Lemma in_skipn_list {A : Type} (n : nat) (l : list A) x : In x (skipn n l) -> In x l.
Proof.
  intros H. rewrite <- (firstn_skipn n l). apply in_or_app. now right.
Qed.

Lemma findPage_incl sorted page ps file :
  In file (findPage sorted page ps) -> In file sorted.
Proof.
  unfold findPage. intros H. eapply in_skipn_list, in_firstn_list, H.
Qed.

(** What [GET /files] answers with, whenever it answers with a listing:
    page, page size and page count are at least 1; the page count is the
    least one that holds all documents; the files are at most a page size
    of documents of the collection, some when the page is within the count
    and the collection is not empty, none when the page is beyond it. *)
Theorem files_listing_invariants
    (collection : outcome (list FileDoc)) (pageQ pageSizeQ : jsvalue)
    (page ps total tp : Z) (files : list FileDoc) :
  filesRoute collection pageQ pageSizeQ = JsonSent page ps total tp files ->
  (1 <= page)%Z /\ (1 <= ps)%Z /\ (1 <= tp)%Z
  /\ (0 <= total <= tp * ps)%Z
  /\ ((tp - 1) * ps < total \/ total = 0)%Z
  /\ (Z.of_nat (length files) <= ps)%Z
  /\ ((page <= tp)%Z -> (0 < total)%Z -> files <> [])
  /\ ((tp < page)%Z -> files = [])
  /\ exists sorted,
       collection = Returns sorted
       /\ total = Z.of_nat (length sorted)
       /\ forall file, In file files -> In file sorted.
Proof.
  unfold filesRoute. destruct collection as [sorted|err]; [|discriminate].
  cbv zeta. intros E. injection E as <- <- <- <- <-.
  pose proof (resolvePage_min pageQ) as Hpage.
  pose proof (resolvePageSize_min pageSizeQ) as Hps.
  set (page := resolvePage pageQ) in *. set (ps := resolvePageSize pageSizeQ) in *.
  pose proof (totalPagesOf_bounds (Z.of_nat (length sorted)) ps ltac:(lia) Hps)
    as [Htp [Hup Hlow]].
  set (tp := totalPagesOf (Z.of_nat (length sorted)) ps) in *.
  pose proof (findPage_length sorted page ps) as Hlen.
  assert (Hskip : (0 <= (page - 1) * ps)%Z) by nia.
  repeat split; try lia.
  - intros Hin Hpos Hnil. rewrite Hnil in Hlen. simpl in Hlen.
    destruct Hlow as [Hlow|Hzero]; [|lia].
    assert ((page - 1) * ps <= (tp - 1) * ps)%Z by nia. lia.
  - intros Hout. apply length_zero_iff_nil.
    assert (Z.of_nat (length sorted) <= (page - 1) * ps)%Z by nia. lia.
  - exists sorted. repeat split. intros file. apply findPage_incl.
Qed.

(** The first page of a collection of three, two files to the page. *)
Lemma files_listing_invariants_witness :
  (Z.of_nat (length [fileNamed "c.txt"; fileNamed "b.txt"]) <= 2)%Z.
Proof.
  exact (proj1 (proj2 (proj2 (proj2 (proj2 (proj2
           (files_listing_invariants (Returns threeFiles) VUndefined (VStr (js "2"))
              1 2 3 2 [fileNamed "c.txt"; fileNamed "b.txt"] eq_refl))))))).
Defined.

Lemma firstn_add {A : Type} (a b : nat) (l : list A) :
  firstn (a + b) l = firstn a l ++ firstn b (skipn a l).
Proof.
  revert l. induction a as [|a IH]; intros l; [reflexivity|].
  destruct l as [|x l]; simpl.
  - now rewrite firstn_nil.
  - now rewrite IH.
Qed.

(** Cutting a list into [m] consecutive pieces of [n] gives its first
    [m * n] elements back. *)
Lemma chunks_concat {A : Type} (n m : nat) (l : list A) :
  concat (List.map (fun k => firstn n (skipn (k * n) l)) (seq 0 m)) = firstn (m * n) l.
Proof.
  induction m as [|m IH]; [reflexivity|].
  rewrite seq_S, map_app, concat_app, IH. simpl.
  rewrite app_nil_r, (Nat.add_comm n (m * n)). symmetry. apply firstn_add.
Qed.

Lemma findPage_chunk sorted ps k :
  (0 <= ps)%Z ->
  findPage sorted (Z.of_nat k + 1) ps
  = firstn (Z.to_nat ps) (skipn (k * Z.to_nat ps) sorted).
Proof.
  intros Hps. unfold findPage. do 2 f_equal.
  replace (Z.of_nat k + 1 - 1)%Z with (Z.of_nat k) by lia.
  rewrite Z2Nat.inj_mul by lia. now rewrite Nat2Z.id.
Qed.

(** The pages [1 .. totalPages] of a collection, one after the other, are
    the collection: every document is listed on some page, none twice, in
    the order of the sort. *)
Theorem pages_partition_the_collection (sorted : list FileDoc) (ps : Z) :
  (1 <= ps)%Z ->
  concat (List.map (fun page => findPage sorted page ps)
            (pageNumbers (totalPagesOf (Z.of_nat (length sorted)) ps)))
  = sorted.
Proof.
  intros Hps. unfold pageNumbers. rewrite map_map.
  rewrite (map_ext _ (fun k => firstn (Z.to_nat ps) (skipn (k * Z.to_nat ps) sorted)))
    by (intros k; apply findPage_chunk; lia).
  rewrite chunks_concat. apply firstn_all2.
  pose proof (totalPagesOf_bounds (Z.of_nat (length sorted)) ps ltac:(lia) Hps)
    as [Htp [Hup _]].
  nia.
Qed.

(** Three files, two to the page: the two pages give the three files. *)
Lemma pages_partition_the_collection_witness :
  concat (List.map (fun page => findPage threeFiles page 2) [1; 2]%Z) = threeFiles.
Proof. exact (pages_partition_the_collection threeFiles 2 ltac:(lia)). Defined.

(** The document at position [k] of the sorted collection is listed on page
    [k / pageSize + 1], at row [k mod pageSize] of that page, and the
    number its row shows is [k + 1]: the numbering runs through the pages
    without a gap or a repeat. *)
Theorem file_is_listed_at_its_rank
    (w : World) (sorted : list FileDoc) (ps : Z) (k : nat) (file : FileDoc) :
  (1 <= ps)%Z ->
  nth_error sorted k = Some file ->
  nth_error (findPage sorted (Z.of_nat k / ps + 1) ps) (Z.to_nat (Z.of_nat k mod ps))
  = Some file
  /\ (1 <= Z.of_nat k / ps + 1 <= totalPagesOf (Z.of_nat (length sorted)) ps)%Z
  /\ occursIn (js "<td>" ++ showZ (Z.of_nat k + 1) ++ js "</td>")
              (homeRow w (Z.of_nat k / ps + 1) ps file (Z.to_nat (Z.of_nat k mod ps))).
Proof.
  intros Hps Hk.
  pose proof (Z.div_mod (Z.of_nat k) ps ltac:(lia)) as Hdm.
  pose proof (Z.mod_pos_bound (Z.of_nat k) ps ltac:(lia)) as Hmod.
  pose proof (Z.div_pos (Z.of_nat k) ps ltac:(lia) ltac:(lia)) as Hdiv.
  assert (Hlt : (k < length sorted)%nat) by (apply nth_error_Some; congruence).
  split; [|split].
  - unfold findPage.
    replace (Z.of_nat k / ps + 1 - 1)%Z with (Z.of_nat k / ps)%Z by lia.
    rewrite nth_error_firstn.
    destruct (Nat.ltb_spec (Z.to_nat (Z.of_nat k mod ps)) (Z.to_nat ps)); [|lia].
    rewrite nth_error_skipn, <- Hk. f_equal. nia.
  - pose proof (totalPagesOf_bounds (Z.of_nat (length sorted)) ps ltac:(lia) Hps)
      as [Htp [Hup _]].
    split; [lia|]. nia.
  - unfold homeRow. cbv zeta.
    replace ((Z.of_nat k / ps + 1 - 1) * ps
             + Z.of_nat (Z.to_nat (Z.of_nat k mod ps)) + 1)%Z
      with (Z.of_nat k + 1)%Z by nia.
    find_cell.
Qed.

(** The third of three files, two to the page: page 2, row 0, number 3. *)
Lemma file_is_listed_at_its_rank_witness :
  nth_error (findPage threeFiles 2 2) 0 = Some (fileNamed "a.txt").
Proof.
  exact (proj1 (file_is_listed_at_its_rank emptyWorld threeFiles 2 2 (fileNamed "a.txt")
                  ltac:(lia) eq_refl)).
Defined.

(** [GET /] shows the paragraph "No files uploaded." in place of the table
    exactly when the collection is empty or the requested page lies beyond
    the last one; in the second case the page still reports the number of
    stored files, has no Next link and has a Previous link. *)
Theorem home_page_without_table
    (w : World) (sorted : list FileDoc) (pageQ pageSizeQ : jsvalue) :
  exists hp,
    homeRoute w (Returns sorted) pageQ pageSizeQ = HomeSent hp
    /\ home_totalDocs hp = Z.of_nat (length sorted)
    /\ (home_rows hp = None <->
        sorted = [] \/ (home_totalPages hp < home_page hp)%Z)
    /\ ((home_totalPages hp < home_page hp)%Z ->
        home_nextLink hp = [] /\ home_prevLink hp <> []).
Proof.
  unfold homeRoute. cbv zeta. eexists. split; [reflexivity|].
  cbn [home_totalDocs home_rows home_totalPages home_page home_nextLink home_prevLink].
  pose proof (resolvePage_min pageQ) as Hpage.
  pose proof (resolvePageSize_min pageSizeQ) as Hps.
  set (page := resolvePage pageQ) in *. set (ps := resolvePageSize pageSizeQ) in *.
  pose proof (totalPagesOf_bounds (Z.of_nat (length sorted)) ps ltac:(lia) Hps)
    as [Htp [Hup Hlow]].
  set (tp := totalPagesOf (Z.of_nat (length sorted)) ps) in *.
  pose proof (findPage_length sorted page ps) as Hlen.
  assert (Hskip : (0 <= (page - 1) * ps)%Z) by nia.
  split; [reflexivity|]. split.
  - split.
    + intros Hnone.
      destruct (findPage sorted page ps) as [|x rest] eqn:E; [|discriminate].
      simpl in Hlen.
      destruct sorted as [|d sorted']; [now left|right].
      destruct (Z.ltb_spec tp page) as [Hout|Hin]; [exact Hout|exfalso].
      destruct Hlow as [Hlow|Hzero]; [|discriminate Hzero].
      assert ((page - 1) * ps <= (tp - 1) * ps)%Z by nia. lia.
    + intros [->|Hout].
      * unfold findPage. now rewrite skipn_nil, firstn_nil.
      * assert (Hnil : findPage sorted page ps = []).
        { apply length_zero_iff_nil.
          assert (Z.of_nat (length sorted) <= (page - 1) * ps)%Z by nia. lia. }
        now rewrite Hnil.
  - intros Hout. unfold nextLink, prevLink.
    destruct (Z.ltb_spec page tp); [lia|].
    destruct (Z.ltb_spec 1 page); [|lia].
    split; [reflexivity|discriminate].
Qed.

Lemma js_String c s : js (String c s) = N_of_ascii c :: js s.
Proof. reflexivity. Qed.

Lemma digitsValue_uint_acc l acc :
  digitsValue decDigit 10 (Zpos acc) (js (NilEmpty.string_of_uint l))
  = Zpos (Pos.of_uint_acc l acc).
Proof.
  revert acc. induction l as [|l IH|l IH|l IH|l IH|l IH|l IH|l IH|l IH|l IH|l IH];
    intros acc; [reflexivity|..];
    cbn [NilEmpty.string_of_uint Pos.of_uint_acc]; rewrite js_String;
    cbn [digitsValue];
    match goal with |- context [decDigit ?c] =>
      let v := eval vm_compute in (decDigit c) in change (decDigit c) with v
    end;
    cbv iota; rewrite <- IH; f_equal; lia.
Qed.

Lemma digitsValue_uint l :
  digitsValue decDigit 10 0 (js (NilEmpty.string_of_uint l)) = Z.of_N (Pos.of_uint l).
Proof.
  induction l as [|l IH|l IH|l IH|l IH|l IH|l IH|l IH|l IH|l IH|l IH];
    [reflexivity|exact IH|..];
    cbn [NilEmpty.string_of_uint Pos.of_uint]; rewrite js_String;
    cbn [digitsValue];
    match goal with |- context [decDigit ?c] =>
      let v := eval vm_compute in (decDigit c) in change (decDigit c) with v
    end;
    cbv iota; cbn [Z.mul Z.add Z.of_N]; apply digitsValue_uint_acc.
Qed.

Lemma uint_string_digits l :
  forallb isDecimalUnit (js (NilEmpty.string_of_uint l)) = true.
Proof.
  induction l; [reflexivity|..];
    cbn [NilEmpty.string_of_uint]; rewrite js_String; cbn [forallb];
    rewrite IHl; reflexivity.
Qed.

Lemma isDecimalUnit_inv c :
  isDecimalUnit c = true ->
  isWhiteSpace c = false /\ (c =? 45) = false /\ (c =? 43) = false
  /\ (c =? 120) = false /\ (c =? 88) = false /\ exists d, decDigit c = Some d.
Proof.
  unfold isDecimalUnit, decDigit. intros H. rewrite H.
  apply andb_true_iff in H. destruct H as [Hlo Hhi].
  apply N.leb_le in Hlo, Hhi.
  unfold isWhiteSpace.
  repeat match goal with
         | |- context [?a =? ?b] => destruct (N.eqb_spec a b); [lia|]
         | |- context [?a <=? ?b] => destruct (N.leb_spec a b); [|]
         end; try lia; repeat split; eauto.
Qed.

(** A non-empty run of decimal digits is read as the number it writes. *)
Lemma parseInt_digits s :
  s <> [] -> forallb isDecimalUnit s = true ->
  parseInt (VStr s) = Some (digitsValue decDigit 10 0 s).
Proof.
  intros Hne Hall. destruct s as [|c r]; [contradiction|].
  cbn [forallb] in Hall. apply andb_true_iff in Hall. destruct Hall as [Hc Hr].
  destruct (isDecimalUnit_inv c Hc) as [Hws [Hminus [Hplus [_ [_ [d Hd]]]]]].
  unfold parseInt. cbn [ToString trimStart]. rewrite Hws.
  unfold readSign. rewrite Hminus, Hplus. cbn [fst snd].
  assert (Hhex : hasHexPrefix (c :: r) = false).
  { destruct r as [|x r']; [reflexivity|]. cbn [forallb] in Hr.
    apply andb_true_iff in Hr. destruct Hr as [Hx _].
    destruct (isDecimalUnit_inv x Hx) as [_ [_ [_ [H120 [H88 _]]]]].
    cbn [hasHexPrefix]. rewrite H120, H88. now rewrite andb_false_r. }
  rewrite Hhex. unfold parseDigits. rewrite Hd.
  f_equal. now rewrite Z.mul_1_l.
Qed.

Lemma showZ_pos p : showZ (Zpos p) = js (NilEmpty.string_of_uint (Pos.to_uint p)).
Proof.
  unfold showZ. cbn [Z.to_int NilZero.string_of_int]. unfold NilZero.string_of_uint.
  pose proof (DecimalPos.Unsigned.to_uint_nonnil p) as Hnn.
  destruct (Pos.to_uint p); [contradiction|reflexivity..].
Qed.

Lemma showZ_neg p :
  showZ (Zneg p) = 45 :: js (NilEmpty.string_of_uint (Pos.to_uint p)).
Proof.
  unfold showZ. cbn [Z.to_int NilZero.string_of_int]. unfold NilZero.string_of_uint.
  pose proof (DecimalPos.Unsigned.to_uint_nonnil p) as Hnn.
  destruct (Pos.to_uint p); [contradiction|reflexivity..].
Qed.

Lemma uint_string_nonempty p : js (NilEmpty.string_of_uint (Pos.to_uint p)) <> [].
Proof.
  pose proof (DecimalPos.Unsigned.to_uint_nonnil p) as Hnn.
  destruct (Pos.to_uint p); [contradiction|discriminate..].
Qed.

Lemma parseInt_showZ_pos p : parseInt (VStr (showZ (Zpos p))) = Some (Zpos p).
Proof.
  rewrite showZ_pos, parseInt_digits
    by (apply uint_string_nonempty || apply uint_string_digits).
  now rewrite digitsValue_uint, DecimalPos.Unsigned.of_to.
Qed.

(** What the server writes for an integer, it reads back as that integer. *)
Lemma parseInt_showZ z : parseInt (VStr (showZ z)) = Some z.
Proof.
  destruct z as [|p|p]; [reflexivity|apply parseInt_showZ_pos|].
  rewrite showZ_neg.
  pose proof (parseInt_showZ_pos p) as Hpos. rewrite showZ_pos in Hpos.
  pose proof (uint_string_nonempty p) as Hne.
  pose proof (uint_string_digits (Pos.to_uint p)) as Hall.
  destruct (js (NilEmpty.string_of_uint (Pos.to_uint p))) as [|c r] eqn:E;
    [contradiction|].
  cbn [forallb] in Hall. apply andb_true_iff in Hall. destruct Hall as [Hc Hr].
  destruct (isDecimalUnit_inv c Hc) as [Hws [Hminus [Hplus _]]].
  unfold parseInt in *. cbn [ToString trimStart] in *.
  rewrite Hws in Hpos. unfold readSign in *. rewrite Hminus, Hplus in Hpos.
  change (isWhiteSpace 45) with false. cbn iota. change (45 =? 45) with true.
  cbn iota. cbn [fst snd] in *.
  destruct (if hasHexPrefix (c :: r)
            then parseDigits hexDigit 16 (skipn 2 (c :: r))
            else parseDigits decDigit 10 (c :: r)) as [m|]; [|discriminate].
  injection Hpos as Hm. f_equal. destruct m; (discriminate Hm || (injection Hm as ->; reflexivity)).
Qed.

(** The page and the page size the navigation links carry are read back by
    the route as the same numbers: following Next from page [p] asks for
    page [p + 1], following Previous for page [p - 1], with the page size
    unchanged. *)
Theorem navigation_links_are_read_back (page ps : Z) :
  (1 <= page < 2 ^ 53)%Z -> (1 <= ps < 2 ^ 53)%Z ->
  resolvePage (VStr (showZ (page + 1))) = (page + 1)%Z
  /\ resolvePageSize (VStr (showZ ps)) = ps
  /\ ((1 < page)%Z -> resolvePage (VStr (showZ (page - 1))) = (page - 1)%Z)
  /\ occursIn (pageHref (page + 1) ps) (nextLink page ps (page + 1))
  /\ ((1 < page)%Z -> occursIn (pageHref (page - 1) ps) (prevLink page ps)).
Proof.
  intros Hpage Hps. unfold resolvePage, resolvePageSize.
  rewrite !parseInt_showZ. unfold orNum.
  split; [destruct (Z.eqb_spec (page + 1) 0); lia|].
  split; [destruct (Z.eqb_spec ps 0); lia|].
  split; [intros H1; destruct (Z.eqb_spec (page - 1) 0); lia|].
  split.
  - unfold nextLink. destruct (Z.ltb_spec page (page + 1)); [|lia]. find_run.
  - intros H1. unfold prevLink. destruct (Z.ltb_spec 1 page); [|lia]. find_run.
Qed.

(** From page 2 with 10 files to the page. *)
Lemma navigation_links_are_read_back_witness :
  resolvePage (VStr (showZ 3)) = 3%Z /\ resolvePageSize (VStr (showZ 10)) = 10%Z.
Proof.
  pose proof (navigation_links_are_read_back 2 10 ltac:(lia) ltac:(lia)) as H.
  exact (conj (proj1 H) (proj1 (proj2 H))).
Defined.

End Listings.

(* ================================================================== *)
(** ** What the routes do to the world *)
(* ================================================================== *)

Section Routes.

Variable w : World.

(** An attempted extraction calls one extractor; what that call gives
    decides the log and [contentString]. *)
Lemma uploadExtraction_attempted f :
  extractionAttempted f = true ->
  uploadExtraction w f
  = match extractorOutcome w f with
    | Returns text => ([extractorStep f], Some text)
    | Throws _ =>
        ([extractorStep f; ConsoleError (js "Content extraction failed:")], None)
    end.
Proof.
  unfold extractionAttempted, extractorOutcome, extractorStep.
  intros Hatt. unfold uploadExtraction. rewrite Hatt.
  apply andb_true_iff in Hatt. destruct Hatt as [_ Hshould].
  apply shouldExtract_kinds in Hshould.
  unfold extractContent. fold (mimeOf f).
  destruct (jsstring_eqb (mimeOf f) MIME_DOCX) eqn:Hdocx.
  - apply jsstring_eqb_eq in Hdocx. rewrite Hdocx.
    change (jsstring_eqb MIME_DOCX MIME_JSON) with false.
    change (jsstring_eqb MIME_DOCX MIME_TEXT_JSON) with false.
    change (jsstring_eqb MIME_DOCX MIME_XML) with false.
    change (jsstring_eqb MIME_DOCX MIME_TEXT_XML) with false.
    change (endsWith (js "+xml") MIME_DOCX) with false.
    change (jsstring_eqb MIME_DOCX MIME_DOCX) with true.
    cbn [orb]. destruct (mammoth_extractRawText w (f_path f)); [|reflexivity].
    now rewrite orS_self.
  - rewrite orb_false_r in Hshould.
    destruct (jsstring_eqb (mimeOf f) MIME_JSON || jsstring_eqb (mimeOf f) MIME_TEXT_JSON).
    + destruct (fs_readFile_utf8 w (f_path f)); reflexivity.
    + cbn [orb] in Hshould. rewrite Hshould.
      destruct (fs_readFile_utf8 w (f_path f)); reflexivity.
Qed.

Lemma uploadExtraction_skipped f :
  extractionAttempted f = false -> uploadExtraction w f = ([], None).
Proof.
  unfold extractionAttempted, uploadExtraction. now intros ->.
Qed.

(** The extraction step of the upload route, the block it enters once the
    form is parsed, reads the uploaded file exactly when the file is at
    most 10MB and of a type [shouldExtractContent] accepts, and then with
    one call: [readFile] for the JSON and XML types, the DOCX extractor for
    the DOCX type. The types [shouldExtractContent] accepts are the ones
    the step has a branch for; a larger file, or one of another type, is
    never read. *)
Theorem upload_reads_supported_files_once (f : UploadedFile) :
  extractorCalls (fst (uploadExtraction w f))
  = if extractionAttempted f then [extractorStep f] else [].
Proof.
  destruct (extractionAttempted f) eqn:Hatt.
  - rewrite (uploadExtraction_attempted f Hatt).
    unfold extractorStep.
    destruct (extractorOutcome w f), (jsstring_eqb (mimeOf f) MIME_DOCX); reflexivity.
  - now rewrite (uploadExtraction_skipped f Hatt).
Qed.

(** The [content] field of the document an upload stores is the text the
    extractor returned, when extraction was attempted and that text is not
    empty; in every other case the field is absent. This holds for the
    JSON, XML and DOCX types alike. *)
Theorem stored_content_is_the_extracted_text (f : UploadedFile) (form : UploadForm) :
  md_content (uploadMetadata w f form)
  = if extractionAttempted f
    then match extractorOutcome w f with
         | Returns (c :: rest) => Some (c :: rest)
         | _ => None
         end
    else None.
Proof.
  unfold uploadMetadata, buildMetadata. cbn [md_content].
  destruct (extractionAttempted f) eqn:Hatt.
  - rewrite (uploadExtraction_attempted f Hatt).
    destruct (extractorOutcome w f) as [[|c rest]|e]; reflexivity.
  - now rewrite (uploadExtraction_skipped f Hatt).
Qed.

Lemma unlinked_app a b : unlinked (a ++ b) = unlinked a ++ unlinked b.
Proof. unfold unlinked. apply flat_map_app. Qed.

Lemma unlinked_extraction f : unlinked (fst (uploadExtraction w f)) = [].
Proof.
  destruct (extractionAttempted f) eqn:Hatt.
  - rewrite (uploadExtraction_attempted f Hatt). unfold extractorStep.
    destruct (extractorOutcome w f), (jsstring_eqb (mimeOf f) MIME_DOCX); reflexivity.
  - now rewrite (uploadExtraction_skipped f Hatt).
Qed.

(** The temporary file of an upload is removed when the bucket has stored
    the file, and only then: after a failed write it is left in place. *)
Theorem temporary_file_removed_after_storing (f : UploadedFile) (form : UploadForm) :
  unlinked (uploadRoute w (Some f) form)
  = match bucket_upload w (f_originalname f) (mimeOf f) (uploadMetadata w f form) with
    | Returns _ => [f_path f]
    | Throws _ => []
    end.
Proof.
  unfold uploadRoute. cbv zeta. rewrite unlinked_app, unlinked_extraction.
  fold (mimeOf f).
  destruct (bucket_upload w (f_originalname f) (mimeOf f) (uploadMetadata w f form));
    reflexivity.
Qed.

Lemma responses_app a b : responses (a ++ b) = responses a ++ responses b.
Proof. unfold responses. apply filter_app. Qed.

Lemma responses_logs k results :
  responses (concat (mapi_from k logResult results)) = [].
Proof.
  revert k. induction results as [|r rest IH]; intros k; [reflexivity|].
  simpl. apply IH.
Qed.

(** A run of the search route or of a download route takes exactly one
    answering step: it sends one page or one status, or it hands the
    response to one download stream, whatever the request and whatever the
    database returns or throws. *)
Theorem every_request_is_answered_once (q : jsvalue) (idParam : jsstring) :
  length (responses (searchRoute w q)) = 1%nat
  /\ length (responses (filesIdRoute w idParam)) = 1%nat
  /\ length (responses (searchDownloadRoute w idParam)) = 1%nat.
Proof.
  assert (Hdownload : length (responses (downloadHandler w idParam)) = 1%nat).
  { unfold downloadHandler.
    destruct (newObjectId idParam) as [id|e]; [|reflexivity].
    destruct (db_findOne w FILES_COLLECTION id) as [[doc|]|e]; try reflexivity.
    destruct (validHeaderValue (contentTypeHeader doc)),
      (validHeaderValue (dispositionHeader doc)); reflexivity. }
  split; [|split; exact Hdownload].
  unfold searchRoute. destruct (truthy q); cbn [negb]; [|reflexivity].
  destruct (db_aggregate w FILES_COLLECTION (pipeline q)) as [results|err];
    [|reflexivity].
  change (responses (ConsoleLog ?a :: Aggregate ?c ?p :: ConsoleLog ?b :: ?x ++ ?y))
    with (responses (x ++ y)).
  unfold mapi. rewrite responses_app, responses_logs. reflexivity.
Qed.

(** The search route sends a request to the search service exactly when
    [req.query.q] is truthy (a non-empty string, or the array or object the
    query parser builds from a repeated or bracketed parameter), and
    then one request, carrying the value unchanged in [pipeline q]. *)
Theorem search_request_sent_for_truthy_query (q : jsvalue) :
  searchCalls (searchRoute w q)
  = if truthy q then [Aggregate FILES_COLLECTION (pipeline q)] else [].
Proof.
  destruct (truthy q) eqn:Hq.
  - now apply searchRoute_calls.
  - unfold searchRoute. rewrite Hq. reflexivity.
Qed.

(** A download route opens the bucket's stream only for an identifier it
    could build and for which the lookup returned a record; the stream it
    opens is the one of that identifier. *)
Theorem download_streams_only_found_records (idParam : jsstring) (id : ObjectId) :
  In (PipeDownload id) (filesIdRoute w idParam) ->
  newObjectId idParam = Returns id
  /\ exists fileDoc, db_findOne w FILES_COLLECTION id = Returns (Some fileDoc).
Proof.
  unfold filesIdRoute, downloadHandler.
  destruct (newObjectId idParam) as [id'|e].
  - destruct (db_findOne w FILES_COLLECTION id') as [[doc|]|e] eqn:Hfind.
    + destruct (validHeaderValue (contentTypeHeader doc)),
        (validHeaderValue (dispositionHeader doc)); simpl; intros H;
        repeat (destruct H as [H|H]; [try discriminate H|]); try contradiction.
      injection H as ->. split; [reflexivity|]. now exists doc.
    + simpl. intros [H|[H|[]]]; discriminate H.
    + simpl. intros [H|[H|[H|[]]]]; discriminate H.
  - simpl. intros [H|[H|[]]]; discriminate H.
Qed.

End Routes.

(** The record found under a well-formed identifier is streamed. *)
Lemma download_streams_only_found_records_witness :
  newObjectId (js "65A1B2C3D4E5F60718293A4B") = Returns (js "65a1b2c3d4e5f60718293a4b")
  /\ exists fileDoc,
       db_findOne oneFileWorld FILES_COLLECTION (js "65a1b2c3d4e5f60718293a4b")
       = Returns (Some fileDoc).
Proof.
  apply (download_streams_only_found_records oneFileWorld
           (js "65A1B2C3D4E5F60718293A4B") (js "65a1b2c3d4e5f60718293a4b")).
  vm_compute. right. right. right. left. reflexivity.
Defined.

(* ================================================================== *)
(** ** From the upload form to the pages *)
(* ================================================================== *)

Section UploadThenList.




End UploadThenList.

(* ================================================================== *)
(** ** More on keywords *)
(* ================================================================== *)

Section KeywordLists.

Lemma split_nonempty c s : split c s <> [].
Proof.
  destruct s as [|x s]; simpl; [discriminate|].
  destruct (x =? c); [discriminate|]. destruct (split c s); discriminate.
Qed.

Lemma split_at_comma a b :
  split COMMA (a ++ COMMA :: b) = split COMMA a ++ split COMMA b.
Proof.
  induction a as [|x a IH]; [reflexivity|].
  simpl. rewrite IH. destruct (x =? COMMA); [reflexivity|].
  pose proof (split_nonempty COMMA a) as Hne.
  destruct (split COMMA a); [contradiction|reflexivity].
Qed.

(** Keywords submitted as two texts with a comma between them are the
    keywords of the first followed by the keywords of the second: the
    order of entry is kept and nothing is merged across a comma. *)
Theorem keywords_of_comma_separated_texts (a b : jsstring) :
  keywordArray (Some (a ++ COMMA :: b))
  = keywordArray (Some a) ++ keywordArray (Some b).
Proof.
  rewrite !keywordArray_parse. unfold parseKeywords.
  now rewrite split_at_comma, map_app, filter_app.
Qed.

End KeywordLists.

(* ================================================================== *)
(** ** More on the escaper *)
(* ================================================================== *)

Section EscaperAlgebra.

Lemma escUnit_view c :
  c = AMP \/ c = LT \/ c = GT \/ c = DQUOTE \/ c = SQUOTE
  \/ (isSpecial c = false /\ escUnit c = [c]).
Proof.
  unfold isSpecial, escUnit.
  destruct (N.eqb_spec c AMP); [auto|].
  destruct (N.eqb_spec c LT); [auto|].
  destruct (N.eqb_spec c GT); [auto|].
  destruct (N.eqb_spec c DQUOTE); [auto 6|].
  destruct (N.eqb_spec c SQUOTE); [auto 7|].
  do 5 right. auto.
Qed.

Ltac by_unit c :=
  let Hplain := fresh "Hplain" in
  let Hunit := fresh "Hunit" in
  destruct (escUnit_view c) as [->|[->|[->|[->|[->|[Hplain Hunit]]]]]].

Lemma escUnit_length c :
  (1 <= length (escUnit c) <= 6)%nat
  /\ (length (escUnit c) = 1%nat -> isSpecial c = false).
Proof.
  by_unit c; try (split; [cbv; lia|intros H; discriminate H]).
  rewrite Hunit. split; [simpl; lia|auto].
Qed.

Lemma escapeString_length s :
  (length s <= length (escapeString s) <= 6 * length s)%nat.
Proof.
  induction s as [|c s IH]; [simpl; lia|].
  rewrite escapeString_cons, length_app. cbn [length].
  pose proof (proj1 (escUnit_length c)). lia.
Qed.

Lemma escapeString_same_length s :
  length (escapeString s) = length s -> plainText s = true.
Proof.
  induction s as [|c s IH]; [reflexivity|].
  rewrite escapeString_cons, length_app. cbn [length plainText forallb]. intros H.
  pose proof (escUnit_length c) as [Hc Hone].
  pose proof (escapeString_length s) as Hs.
  rewrite Hone by lia. cbn [negb andb]. apply IH. lia.
Qed.

(** Escaping never shortens a text and at most makes it six times as long;
    the length stays the same exactly when the text has none of the five
    characters, and then the text itself is unchanged. *)
Theorem escaping_lengthens_only_special_text (s : jsstring) :
  (length s <= length (escapeString s) <= 6 * length s)%nat
  /\ (length (escapeString s) = length s <-> plainText s = true)
  /\ (escapeString s = s <-> plainText s = true).
Proof.
  split; [apply escapeString_length|]. split; split.
  - apply escapeString_same_length.
  - intros H. now rewrite escapeString_plain.
  - intros H. apply escapeString_same_length. now rewrite H.
  - apply escapeString_plain.
Qed.

Lemma escUnit_not_nil c : escUnit c <> [].
Proof. by_unit c; try discriminate. rewrite Hunit. discriminate. Qed.

Lemma escapeString_inj_step c d a b :
  escUnit c ++ a = escUnit d ++ b -> c = d /\ a = b.
Proof.
  by_unit c; by_unit d;
    repeat match goal with E : escUnit _ = [_] |- _ => rewrite E; clear E end;
    cbn; intros H;
    try discriminate H;
    try (injection H as <-; split; reflexivity);
    try (injection H as -> _;
         match goal with E : isSpecial _ = false |- _ => discriminate E end);
    try (injection H as <- _;
         match goal with E : isSpecial _ = false |- _ => discriminate E end).
  injection H as -> ->. split; reflexivity.
Qed.

Lemma escapeString_inj a b : escapeString a = escapeString b -> a = b.
Proof.
  revert b. induction a as [|c a IH]; intros [|d b]; rewrite ?escapeString_cons.
  - reflexivity.
  - intros H. symmetry in H. apply app_eq_nil in H. destruct H as [H _].
    now apply escUnit_not_nil in H.
  - intros H. apply app_eq_nil in H. destruct H as [H _].
    now apply escUnit_not_nil in H.
  - intros H. apply escapeString_inj_step in H. destruct H as [-> H].
    f_equal. now apply IH.
Qed.

(** Two texts have the same escaped form exactly when they are the same
    text: escaping loses nothing of what it is given, and two different
    names never show as the same markup. *)
Theorem escaping_is_injective (a b : jsstring) :
  escapeHtml (VStr a) = escapeHtml (VStr b) <-> a = b.
Proof.
  rewrite !escapeHtml_VStr. split; [apply escapeString_inj|now intros ->].
Qed.

Lemma plainText_app a b : plainText (a ++ b) = plainText a && plainText b.
Proof. unfold plainText. apply forallb_app. Qed.

Lemma plainText_escaped s : plainText (escapeString s) = true -> plainText s = true.
Proof.
  induction s as [|c s IH]; [reflexivity|].
  rewrite escapeString_cons, plainText_app. intros H.
  apply andb_true_iff in H. destruct H as [Hc Hs].
  cbn [plainText forallb]. fold (plainText s). rewrite (IH Hs), andb_true_r.
  by_unit c; try discriminate Hc. now rewrite Hplain.
Qed.

(** Escaping an escaped text again changes it, unless the text had none of
    the five characters: the escaper is to be applied once. *)
Theorem escaping_twice_differs (s : jsstring) :
  escapeString (escapeString s) = escapeString s <-> plainText s = true.
Proof.
  split.
  - intros H. apply plainText_escaped, escapeString_same_length. now rewrite H.
  - intros H. rewrite (escapeString_plain s H). exact (escapeString_plain s H).
Qed.

Lemma escapeString_join sep parts :
  escapeString (join sep parts) = join (escapeString sep) (List.map escapeString parts).
Proof.
  induction parts as [|p [|q rest] IH]; [reflexivity|reflexivity|].
  change (join sep (p :: q :: rest)) with (p ++ sep ++ join sep (q :: rest)).
  rewrite !escapeString_app, IH. reflexivity.
Qed.

(** The keywords cell of the search page, which escapes the joined
    keywords, holds the escaped keywords joined by a comma and a space:
    each keyword is escaped on its own and the separators are untouched. *)
Theorem escaped_keywords_cell (md : Metadata) (l : list jsstring) :
  md_keywords md = KwList l ->
  escapeHtml (VStr (keywordsDisplay md)) = join (js ", ") (List.map escapeString l).
Proof.
  intros H. unfold keywordsDisplay. rewrite H, escapeHtml_VStr, escapeString_join.
  reflexivity.
Qed.

(** The keywords of the file that carries markup. *)
Lemma escaped_keywords_cell_witness :
  escapeHtml (VStr (keywordsDisplay (metadataOf markupFile)))
  = js "&lt;b&gt;finance&lt;/b&gt;, q1".
Proof.
  exact (escaped_keywords_cell (metadataOf markupFile)
           [js "<b>finance</b>"; js "q1"] eq_refl).
Defined.

End EscaperAlgebra.

(* ================================================================== *)
(** ** More on the highlight table *)
(* ================================================================== *)

Section HighlightMarkup.

Lemma noMarkup_app a b : noMarkup a -> noMarkup b -> noMarkup (a ++ b).
Proof.
  intros Ha Hb c Hc. apply in_app_or in Hc. destruct Hc; [now apply Ha|now apply Hb].
Qed.

Lemma noMarkup_lastN n s : noMarkup s -> noMarkup (lastN n s).
Proof.
  intros Hs c Hc. apply Hs. unfold lastN in Hc.
  rewrite <- (firstn_skipn (length s - n) s). apply in_or_app. now right.
Qed.

Lemma noMarkup_ELLIPSIS : noMarkup ELLIPSIS.
Proof.
  intros c Hc. unfold ELLIPSIS, LT, GT, DQUOTE, SQUOTE in *. simpl in Hc.
  repeat (destruct Hc as [<-|Hc]; [repeat split; discriminate|]). destruct Hc.
Qed.

Lemma noMarkup_escaped s : noMarkup (escapeString s).
Proof. intros c Hc. eapply escapeString_no_markup; eassumption. Qed.

Lemma ampsBeginEntities_tail c rest :
  ampsBeginEntities (c :: rest) = true -> ampsBeginEntities rest = true.
Proof.
  rewrite ampsBeginEntities_cons. intros H. now apply andb_true_iff in H.
Qed.

Lemma ampsBeginEntities_skipn k s :
  ampsBeginEntities s = true -> ampsBeginEntities (skipn k s) = true.
Proof.
  revert s. induction k as [|k IH]; intros s H; [exact H|].
  destruct s as [|c rest]; [reflexivity|]. simpl. apply IH.
  now apply ampsBeginEntities_tail in H.
Qed.

(** Whatever text the search service returns in a highlight, a snippet is
    a sequence of parts of two kinds only: a hit, which is the marker
    around a text free of [<], [>] and quotes, and a context, which is
    free of them altogether. In a context every ampersand still starts an
    entity, also when the cap of 80 has cut the text. So the only markup in
    a snippet is the marker the code puts there. *)
Theorem snippet_markup_is_the_marker_only (h : Highlight) :
  snippetOf h = concat (List.map renderPart (textsOf h))
  /\ Forall (fun t =>
              (seg_type t = js "hit"
               /\ renderPart t
                  = js "<mark>" ++ escapeString (seg_value t) ++ js "</mark>"
               /\ noMarkup (escapeString (seg_value t)))
              \/ (seg_type t <> js "hit"
                  /\ noMarkup (renderPart t)
                  /\ ampsBeginEntities (renderPart t) = true))
            (textsOf h).
Proof.
  split; [unfold snippetOf; apply join_nil_concat|].
  apply Forall_forall. intros t _.
  destruct (list_eq_dec N.eq_dec (seg_type t) (js "hit")) as [Hhit|Hctx].
  - left. split; [exact Hhit|]. split; [|apply noMarkup_escaped].
    rewrite (renderPart_hit t Hhit). unfold marked. now rewrite escapeHtml_VStr.
  - right. split; [exact Hctx|]. rewrite (renderPart_context t Hctx).
    destruct (AROUND_LEN <? length (escapeString (seg_value t)))%nat.
    + split.
      * apply noMarkup_app; [apply noMarkup_ELLIPSIS|].
        apply noMarkup_lastN, noMarkup_escaped.
      * unfold ELLIPSIS. rewrite <- !app_comm_cons, app_nil_l.
        rewrite !ampsBeginEntities_cons. cbn [N.eqb Pos.eqb andb AMP].
        unfold lastN. apply ampsBeginEntities_skipn, ampsBeginEntities_escapeString.
    + split; [apply noMarkup_escaped|apply ampsBeginEntities_escapeString].
Qed.

(** A context segment adds at most 83 code units to a snippet, the marker
    and 80 of its own; a hit adds its whole escaped text and the 13 of the
    marker, which is never less than the text itself. *)
Theorem snippet_part_lengths (t : TextSeg) :
  (seg_type t <> js "hit" -> (length (renderPart t) <= 83)%nat)
  /\ (seg_type t = js "hit" ->
      length (renderPart t) = (13 + length (escapeString (seg_value t)))%nat
      /\ (13 + length (seg_value t) <= length (renderPart t))%nat).
Proof.
  split.
  - intros Hctx. rewrite (renderPart_context t Hctx).
    destruct (Nat.ltb_spec AROUND_LEN (length (escapeString (seg_value t)))) as [Hlong|Hshort].
    + rewrite length_app, lastN_length by (unfold AROUND_LEN in *; lia).
      unfold AROUND_LEN. simpl. lia.
    + unfold AROUND_LEN in Hshort. lia.
  - intros Hhit. rewrite (renderPart_hit t Hhit). unfold marked.
    rewrite escapeHtml_VStr, !length_app.
    pose proof (escapeString_length (seg_value t)) as Hlen.
    change (length (js "<mark>")) with 6%nat. change (length (js "</mark>")) with 7%nat.
    lia.
Qed.

(** The table is the empty string exactly when there is nothing to show:
    [highlights] is not an array, or it is the empty array. With one entry
    or more the table is never empty, even when no entry has a segment. *)
Theorem highlight_table_empty_iff (highlights : option (list Highlight)) :
  buildHighlightTable highlights = [] <-> highlights = None \/ highlights = Some [].
Proof.
  split.
  - destruct highlights as [[|h hs]|]; auto.
    cbv beta iota zeta delta [buildHighlightTable].
    destruct (join [] (List.map highlightRow (h :: hs))) as [|c rows] eqn:E.
    + rewrite join_nil_concat in E. discriminate E.
    + intros H. discriminate H.
  - intros [->| ->]; reflexivity.
Qed.

End HighlightMarkup.
